(** * SVD-Visualizer: the 2x2 singular value decomposition of [utils/matrix]

    The TypeScript module works on JavaScript [number]s.  Its functions are
    translated once, over an interface [Number] of the arithmetic they use,
    and read at two instances:

    - [Binary64]: IEEE 754 binary64 with round-to-nearest-even, which is what
      a JavaScript [number] is; the definitions evaluate there, bit for bit;
    - [Exact]: the real numbers, the arithmetic the algorithm is designed in,
      where the algebraic laws are proved for every input. *)

From Stdlib Require Import Reals Lra Lia ZArith Bool List.
From Stdlib Require Import PrimFloat.
From Stdlib Require FloatOps SpecFloat Uint63.

Set Implicit Arguments.

(** ** The arithmetic interface *)

Declare Scope num_scope.
Delimit Scope num_scope with num.

Class Number (num : Type) : Type := {
  n_add : num -> num -> num;
  n_sub : num -> num -> num;
  n_mul : num -> num -> num;
  n_div : num -> num -> num;
  n_neg : num -> num;
  (* Math.sqrt, Math.abs *)
  n_sqrt : num -> num;
  n_abs : num -> num;
  (* the comparisons [<] and [<=]; [x > y] is [y < x], [x >= y] is [y <= x] *)
  n_ltb : num -> num -> bool;
  n_leb : num -> num -> bool;
  (* the literals of the module *)
  n_0 : num;
  n_1 : num;
  n_2 : num;
  n_4 : num;
  n_1e_10 : num;
  n_1e_9 : num
}.

(** [Math.cos], [Math.sin] and [Math.atan2(y, x)], which the angle codec
    calls.  ECMAScript leaves their results implementation-approximated, so
    they are read in exact arithmetic only. *)
Class Trig (num : Type) : Type := {
  n_cos : num -> num;
  n_sin : num -> num;
  n_atan2 : num -> num -> num
}.

Infix "+" := n_add : num_scope.
Infix "-" := n_sub : num_scope.
Infix "*" := n_mul : num_scope.
Infix "/" := n_div : num_scope.
Notation "- x" := (n_neg x) : num_scope.
Notation "x <? y" := (n_ltb x y) : num_scope.
Notation "x >? y" := (n_ltb y x) : num_scope.
Notation "x >=? y" := (n_leb y x) : num_scope.

(** ** Data model *)

(** [type Matrix2x2 = [[number, number], [number, number]]] *)
Definition Vec2 (num : Type) : Type := (num * num)%type.
Definition Matrix2x2 (num : Type) : Type := (Vec2 num * Vec2 num)%type.

(** The two indices of a row or of a column. *)
Inductive idx : Type := I0 | I1.

Definition at_ {num : Type} (p : Vec2 num) (i : idx) : num :=
  match i with I0 => fst p | I1 => snd p end.

(** [m[i][j]] *)
Definition entry {num : Type} (m : Matrix2x2 num) (i j : idx) : num :=
  at_ (match i with I0 => fst m | I1 => snd m end) j.

Record SVDResult (num : Type) : Type := mkSVD {
  u : Matrix2x2 num;
  s : Vec2 num;
  v : Matrix2x2 num;   (* this is V, not V^T *)
  vt : Matrix2x2 num   (* this is V^T *)
}.

(** ** The functions of the module *)

Section Code.
Context {num : Type} {N : Number num}.
Local Open Scope num_scope.

(** [computeSVD], by the steps its comments name.  "Compute A^T * A": the
    Gram matrix [[[e, f], [f, g]]]. *)
Definition gram_e (m : Matrix2x2 num) : num :=
  let a := entry m I0 I0 in let c := entry m I1 I0 in a * a + c * c.
Definition gram_f (m : Matrix2x2 num) : num :=
  let a := entry m I0 I0 in let b := entry m I0 I1 in
  let c := entry m I1 I0 in let d := entry m I1 I1 in a * b + c * d.
Definition gram_g (m : Matrix2x2 num) : num :=
  let b := entry m I0 I1 in let d := entry m I1 I1 in b * b + d * d.

(** "Eigenvalues of A^T * A", the roots of
    [lambda^2 - (e+g) lambda + (eg - f^2)]. *)
Definition disc (m : Matrix2x2 num) : num :=
  let e := gram_e m in let f := gram_f m in let g := gram_g m in
  n_sqrt ((e - g) * (e - g) + n_4 * f * f).
Definition lambda1 (m : Matrix2x2 num) : num :=
  (gram_e m + gram_g m + disc m) / n_2.
Definition lambda2 (m : Matrix2x2 num) : num :=
  (gram_e m + gram_g m - disc m) / n_2.

(** "Eigenvectors of A^T * A for V": the columns [v1], [v2] of V. *)
Definition right_vectors (m : Matrix2x2 num) : Vec2 num * Vec2 num :=
  let e := gram_e m in let f := gram_f m in let g := gram_g m in
  if n_abs f <? n_1e_10 then
    if e >=? g then ((n_1, n_0), (n_0, n_1))
    else ((n_0, n_1), (- n_1, n_0))
  else
    let v1 := (f, lambda1 m - e) in
    let norm1 := n_sqrt (fst v1 * fst v1 + snd v1 * snd v1) in
    let v1 := (fst v1 / norm1, snd v1 / norm1) in
    let v2 := (- snd v1, fst v1) in
    (v1, v2).

(** "U = A * V * S^-1": the columns [u1], [u2] of U, from the singular values
    [s1], [s2] and the columns of V. *)
Definition left_vectors (m : Matrix2x2 num) (s1 s2 : num)
    (v1 v2 : Vec2 num) : Vec2 num * Vec2 num :=
  let a := entry m I0 I0 in let b := entry m I0 I1 in
  let c := entry m I1 I0 in let d := entry m I1 I1 in
  let u1 :=
    if s1 >? n_1e_9 then
      ((a * fst v1 + b * snd v1) / s1, (c * fst v1 + d * snd v1) / s1)
    else (n_1, n_0) in
  let u2 :=
    if s2 >? n_1e_9 then
      ((a * fst v2 + b * snd v2) / s2, (c * fst v2 + d * snd v2) / s2)
    else (- snd u1, fst u1) in
  (u1, u2).

Definition computeSVD (matrix : Matrix2x2 num) : SVDResult num :=
  let s1 := n_sqrt (lambda1 matrix) in
  let s2 := n_sqrt (lambda2 matrix) in
  let '(v1, v2) := right_vectors matrix in
  let '(u1, u2) := left_vectors matrix s1 s2 v1 v2 in
  {| u := ((fst u1, fst u2), (snd u1, snd u2));
     s := (s1, s2);
     v := ((fst v1, fst v2), (snd v1, snd v2));
     vt := ((fst v1, snd v1), (fst v2, snd v2)) |}.

(** [math.multiply] of mathjs on two 2x2 arrays: each entry is the product
    of the first pair plus the product of the second pair, in that order. *)
Definition multiply (x y : Matrix2x2 num) : Matrix2x2 num :=
  let cell i j := entry x i I0 * entry y I0 j + entry x i I1 * entry y I1 j in
  ((cell I0 I0, cell I0 I1), (cell I1 I0, cell I1 I1)).

Definition reconstructMatrix (u : Matrix2x2 num) (s : Vec2 num)
    (vt : Matrix2x2 num) : Matrix2x2 num :=
  let S := ((fst s, n_0), (n_0, snd s)) in
  let us := multiply u S in
  multiply us vt.

Definition applyTransform (matrix : Matrix2x2 num) (point : Vec2 num)
    : Vec2 num :=
  (entry matrix I0 I0 * fst point + entry matrix I0 I1 * snd point,
   entry matrix I1 I0 * fst point + entry matrix I1 I1 * snd point).

(** The angle codec, over the three functions of [Math] it calls. *)
Context {T : Trig num}.

Definition getAngle (matrix : Matrix2x2 num) : num :=
  (* angle = atan2(sin, cos) = atan2(m[1][0], m[0][0]) *)
  n_atan2 (entry matrix I1 I0) (entry matrix I0 I0).

Definition fromAngle (angle : num) : Matrix2x2 num :=
  let c := n_cos angle in
  let s := n_sin angle in
  ((c, - s), (s, c)).

End Code.

(** ** The two arithmetics *)

(** Decimal literals denote the nearest binary64 number, as they do in
    JavaScript. *)
Set Warnings "-inexact-float".

(** JavaScript numbers: binary64. Comparisons with NaN are false. *)
#[export] Instance Binary64 : Number float := {|
  n_add := PrimFloat.add;
  n_sub := PrimFloat.sub;
  n_mul := PrimFloat.mul;
  n_div := PrimFloat.div;
  n_neg := PrimFloat.opp;
  n_sqrt := PrimFloat.sqrt;
  n_abs := PrimFloat.abs;
  n_ltb := PrimFloat.ltb;
  n_leb := PrimFloat.leb;
  n_0 := 0%float;
  n_1 := 1%float;
  n_2 := 2%float;
  n_4 := 4%float;
  n_1e_10 := 1e-10%float;
  n_1e_9 := 1e-9%float
|}.

Definition Rltb (x y : R) : bool := if Rlt_dec x y then true else false.
Definition Rleb (x y : R) : bool := if Rle_dec x y then true else false.

(** Exact real arithmetic.  [R_sqrt.sqrt] is 0 on a negative number and a
    quotient by 0 is 0, where JavaScript has NaN and infinities; in exact
    arithmetic the program takes no such root or quotient (lemma
    [OnReals.exact_well_defined]). *)
#[export] Instance Exact : Number R := {|
  n_add := Rplus;
  n_sub := Rminus;
  n_mul := Rmult;
  n_div := Rdiv;
  n_neg := Ropp;
  n_sqrt := R_sqrt.sqrt;
  n_abs := Rabs;
  n_ltb := Rltb;
  n_leb := Rleb;
  n_0 := 0%R;
  n_1 := 1%R;
  n_2 := 2%R;
  n_4 := 4%R;
  n_1e_10 := 1e-10%R;
  n_1e_9 := 1e-9%R
|}.

(** [Math.atan2(y, x)] on real arguments: the angle, in radians, between the
    positive x axis and the ray from the origin to [(x, y)]; [0] at the
    origin. *)
Definition atan2 (y x : R) : R :=
  match total_order_T x 0 with
  | inleft (right _) =>        (* x = 0 *)
      match total_order_T y 0 with
      | inleft (left _) => (- (PI / 2))%R
      | inleft (right _) => 0%R
      | inright _ => (PI / 2)%R
      end
  | inleft (left _) =>         (* x < 0 *)
      if Rle_dec 0 y then (atan (y / x) + PI)%R else (atan (y / x) - PI)%R
  | inright _ => atan (y / x)  (* 0 < x *)
  end.

#[export] Instance ExactTrig : Trig R := {|
  n_cos := cos;
  n_sin := sin;
  n_atan2 := atan2
|}.

(** ** Vocabulary of the properties *)

Section Properties.
Context {num : Type} {N : Number num}.
Local Open Scope num_scope.

(** Column [j] of a matrix, dot product, Euclidean norm, determinant. *)
Definition col (m : Matrix2x2 num) (j : idx) : Vec2 num :=
  (entry m I0 j, entry m I1 j).
Definition dot (p q : Vec2 num) : num := fst p * fst q + snd p * snd q.
Definition norm (p : Vec2 num) : num := n_sqrt (dot p p).
Definition det (m : Matrix2x2 num) : num :=
  entry m I0 I0 * entry m I1 I1 - entry m I0 I1 * entry m I1 I0.

(** A matrix given by its entries. *)
Definition mat_of (f : idx -> idx -> num) : Matrix2x2 num :=
  ((f I0 I0, f I0 I1), (f I1 I0, f I1 I1)).

(** The matrix product as the specification words it:
    [(XY)[i][j] = sum over k of X[i][k] * Y[k][j]]. *)
Definition sum_idx (f : idx -> num) : num := f I0 + f I1.
Definition matprod (x y : Matrix2x2 num) : Matrix2x2 num :=
  mat_of (fun i j => sum_idx (fun k => entry x i k * entry y k j)).
Definition diag (s : Vec2 num) : Matrix2x2 num :=
  mat_of (fun i j =>
            match i, j with
            | I0, I0 => fst s
            | I1, I1 => snd s
            | _, _ => n_0
            end).

(** [|x - y| <= tol], as the program would test it. *)
Definition within (tol x y : num) : bool := n_leb (n_abs (x - y)) tol.

Definition all_idx (p : idx -> bool) : bool := p I0 && p I1.

(** Every entry of [x] is within [tol] of the same entry of [y]. *)
Definition mat_within (tol : num) (x y : Matrix2x2 num) : bool :=
  all_idx (fun i => all_idx (fun j => within tol (entry x i j) (entry y i j))).

(** Decompose, then reconstruct from [u], [s] and [vt]. *)
Definition roundtrip (a : Matrix2x2 num) : Matrix2x2 num :=
  let r := computeSVD a in reconstructMatrix (u r) (s r) (vt r).

(** Both columns have norm 1 and their dot product is 0, within [tol]. *)
Definition orthonormal_columns (tol : num) (m : Matrix2x2 num) : bool :=
  within tol (norm (col m I0)) n_1 && within tol (norm (col m I1)) n_1
  && within tol (dot (col m I0) (col m I1)) n_0.

(** [s0 >= s1 >= 0], as the program would test it. *)
Definition descending (s : Vec2 num) : bool :=
  (fst s >=? snd s) && (snd s >=? n_0).

End Properties.

(** The identity matrix. *)
Definition identity {num : Type} {N : Number num} : Matrix2x2 num :=
  ((n_1, n_0), (n_0, n_1)).

(** ** Inputs the theorems evaluate the program at *)

Module Inputs.

(** [[[x, x], [x, x]]] *)
Definition constant {num : Type} (x : num) : Matrix2x2 num := ((x, x), (x, x)).

(** [2^-18 = 3.814697265625e-06], exactly a binary64 number. *)
Definition tiny : float := 0x1p-18%float.
Definition tinyR : R := (1 / 262144)%R.

(** [[[0.3, 0.6], [0, 0]]] and [[[0.2, 0.3], [0.4, 0.6]]], both of rank one. *)
Definition rank_one_a : Matrix2x2 float := ((0.3, 0.6), (0, 0))%float.
Definition rank_one_b : Matrix2x2 float := ((0.2, 0.3), (0.4, 0.6))%float.

(** [[[1e100, 1e100], [0, 0]]]: [e], [f] and [g] are finite, [4 * f * f] is
    not. *)
Definition huge : Matrix2x2 float := ((1e100, 1e100), (0, 0))%float.

Definition zero {num : Type} {N : Number num} : Matrix2x2 num :=
  ((n_0, n_0), (n_0, n_0)).


End Inputs.

(** ** The application: [App.tsx] *)

(** What the components use besides the arithmetic of [Number]:
    [Math.max], [Math.min], [Math.round], [Math.PI], the literals [5], [10],
    [180], [1.5], [0.5], and [x || 0] on the number [x] that [parseFloat]
    returns. *)
Class Ui (num : Type) : Type := {
  n_max : num -> num -> num;
  n_min : num -> num -> num;
  n_round : num -> num;
  n_or_zero : num -> num;
  n_pi : num;
  n_5 : num;
  n_10 : num;
  n_180 : num;
  n_1_5 : num;
  n_0_5 : num
}.

(** *** The built-ins on binary64 numbers *)

Module Js.

(** An integer below [2^63] in magnitude as a binary64 number; exact below
    [2^53]. *)
Definition of_Z (z : Z) : float :=
  match z with
  | Z0 => 0%float
  | Zpos _ => PrimFloat.of_uint63 (Uint63.of_Z z)
  | Zneg q => PrimFloat.opp (PrimFloat.of_uint63 (Uint63.of_Z (Zpos q)))
  end.

(** [Math.round]: the integer closest to [x], the one closer to +infinity
    on a tie; [-0] for [-0.5 <= x <= -0]; [x] itself when it is an integer,
    an infinity or NaN.  The integer is computed exactly, from the mantissa
    [m] and exponent [e] of [x = +-m * 2^e]. *)
Definition round (x : float) : float :=
  match FloatOps.Prim2SF x with
  | SpecFloat.S754_finite sgn m e =>
      if (0 <=? e)%Z then x
      else
        let d := (2 ^ (- e))%Z in
        let n := if sgn then Zneg m else Zpos m in
        let r := ((2 * n + d) / (2 * d))%Z in
        if (r =? 0)%Z then (if sgn then (-0)%float else 0%float) else of_Z r
  | _ => x
  end.

(** [Math.min] and [Math.max] of two arguments: NaN if either is NaN, and
    [-0] counts as smaller than [+0]. *)
Definition min (a b : float) : float :=
  if PrimFloat.is_nan a || PrimFloat.is_nan b then PrimFloat.nan
  else if PrimFloat.ltb a b then a
  else if PrimFloat.ltb b a then b
  else if PrimFloat.get_sign a then a else b.

Definition max (a b : float) : float :=
  if PrimFloat.is_nan a || PrimFloat.is_nan b then PrimFloat.nan
  else if PrimFloat.ltb a b then b
  else if PrimFloat.ltb b a then a
  else if PrimFloat.get_sign a then b else a.

(** [x || 0]: a number is falsy when it is NaN, [+0] or [-0]. *)
Definition or_zero (x : float) : float :=
  if PrimFloat.is_nan x || PrimFloat.is_zero x then 0%float else x.

End Js.

#[export] Instance Binary64Ui : Ui float := {|
  n_max := Js.max;
  n_min := Js.min;
  n_round := Js.round;
  n_or_zero := Js.or_zero;
  n_pi := 0x1.921fb54442d18p+1%float;
  n_5 := 5%float;
  n_10 := 10%float;
  n_180 := 180%float;
  n_1_5 := 1.5%float;
  n_0_5 := 0.5%float
|}.

(** On the reals [Math.round x] is the floor of [x + 1/2], and [x || 0] is
    [x]: it is 0 exactly when [x] is. *)
#[export] Instance ExactUi : Ui R := {|
  n_max := Rmax;
  n_min := Rmin;
  n_round := fun x => IZR (Int_part (x + / 2));
  n_or_zero := fun x => x;
  n_pi := PI;
  n_5 := 5%R;
  n_10 := 10%R;
  n_180 := 180%R;
  n_1_5 := 1.5%R;
  n_0_5 := 0.5%R
|}.

(** [next[i] = x] on a copy of a pair, and [next[row][col] = x] on a copy of
    a matrix. *)
Definition set_at {num : Type} (p : Vec2 num) (i : idx) (x : num) : Vec2 num :=
  match i with I0 => (x, snd p) | I1 => (fst p, x) end.

Definition set_entry {num : Type} (m : Matrix2x2 num) (row col : idx) (x : num)
    : Matrix2x2 num :=
  match row with
  | I0 => (set_at (fst m) col x, snd m)
  | I1 => (fst m, set_at (snd m) col x)
  end.

(** [array.slice(b, e)] *)
Definition slice {A : Type} (l : list A) (b e : nat) : list A :=
  firstn (e - b) (skipn b l).

(** The state of [App]: [matrixA] and [svd]. *)
Record AppState (num : Type) : Type := mkApp {
  matrixA : Matrix2x2 num;
  svd : SVDResult num
}.

(** What the user can do: edit an entry of A, move a rotation slider, or
    change a scaling factor. *)
Inductive event (num : Type) : Type :=
  | AChange (newA : Matrix2x2 num)
  | AngleUChange (newAngle : num)
  | AngleVTChange (newAngle : num)
  | SigmaChange (newS : Vec2 num).

Arguments AChange {num} newA.
Arguments AngleUChange {num} newAngle.
Arguments AngleVTChange {num} newAngle.
Arguments SigmaChange {num} newS.

(** The commands of an SVG path: [M x y], [L x y] and [Z]. *)
Inductive path_cmd (num : Type) : Type :=
  | MoveTo (x y : num)
  | LineTo (x y : num)
  | ClosePath.

Arguments MoveTo {num} x y.
Arguments LineTo {num} x y.

Section App.
Context {num : Type} {N : Number num} {T : Trig num} {U : Ui num}.
Local Open Scope num_scope.

(** [RotationSlider]: the slider shows [deg] and reports an angle in
    radians. *)
Definition slider_deg (angle : num) : num := (angle * n_180) / n_pi.
Definition slider_angle (value : num) : num := (value * n_pi) / n_180.

(** [MatrixInput]: [handleChange(row, col, val)], on the number [parsed]
    that [parseFloat(val)] returns. *)
Definition MatrixInput_handleChange (value : Matrix2x2 num) (row col : idx)
    (parsed : num) : Matrix2x2 num :=
  (* const num = parseFloat(val) || 0; next[row][col] = num; *)
  set_entry value row col (n_or_zero parsed).

(** [SigmaInput]: the buttons call [adjust(idx, -0.1)] and
    [adjust(idx, 0.1)], the field calls [handleInput(idx, val)]. *)
Definition SigmaInput_adjust (value : Vec2 num) (i : idx) (delta : num)
    : Vec2 num :=
  set_at value i
    (n_max n_0 (n_min n_5 (n_round ((at_ value i + delta) * n_10) / n_10))).

Definition SigmaInput_handleInput (value : Vec2 num) (i : idx) (parsed : num)
    : Vec2 num :=
  (* const num = parseFloat(val) || 0; *)
  set_at value i (n_max n_0 (n_min n_5 (n_or_zero parsed))).

(** [TransformStage]: the points under the matrix, and the three polygons
    of the F shape. *)
Definition transformedPoints (matrix : Matrix2x2 num)
    (points : list (Vec2 num)) : list (Vec2 num) :=
  map (fun '(x, y) =>
         (entry matrix I0 I0 * x + entry matrix I0 I1 * y,
          entry matrix I1 I0 * x + entry matrix I1 I1 * y)) points.

Definition polygons (matrix : Matrix2x2 num) (points : list (Vec2 num))
    : list (list (Vec2 num)) :=
  let tp := transformedPoints matrix points in
  slice tp 0 4 :: slice tp 4 8 :: slice tp 8 12 :: nil.

(** The [d] attribute of the [path] of a polygon, as its commands: [M] to
    the first vertex, [L] to each of the others, [Z]; every coordinate is
    multiplied by [scale = (size - padding * 2) / 4].  On an empty polygon
    [poly[0]] is undefined and reading [poly[0][0]] throws: [None]. *)
Definition polygon_path (scale : num) (poly : list (Vec2 num))
    : option (list (path_cmd num)) :=
  match poly with
  | nil => None
  | p0 :: rest =>
      Some (MoveTo (fst p0 * scale) (snd p0 * scale)
            :: map (fun p => LineTo (fst p * scale) (snd p * scale)) rest
            ++ ClosePath num :: nil)
  end.

(** The paths of the three polygons, or [None] when building one throws. *)
Definition stage_paths (scale : num) (matrix : Matrix2x2 num)
    (points : list (Vec2 num)) : option (list (list (path_cmd num))) :=
  fold_right
    (fun poly acc =>
       match polygon_path scale poly, acc with
       | Some d, Some ds => Some (d :: ds)
       | _, _ => None
       end)
    (Some nil) (polygons matrix points).

(** [App]: the initial state, the derived angles and the handlers. *)
Definition initialA : Matrix2x2 num := ((n_1_5, n_0_5), (n_0_5, n_1_5)).

Definition initialState : AppState num :=
  {| matrixA := initialA; svd := computeSVD initialA |}.

Definition angleU (st : AppState num) : num := getAngle (u (svd st)).
Definition angleVT (st : AppState num) : num := getAngle (vt (svd st)).

Definition handleAChange (st : AppState num) (newA : Matrix2x2 num)
    : AppState num :=
  {| matrixA := newA; svd := computeSVD newA |}.

Definition handleAngleUChange (st : AppState num) (newAngle : num)
    : AppState num :=
  let newU := fromAngle newAngle in
  let newSvd := {| u := newU; s := s (svd st); v := v (svd st);
                   vt := vt (svd st) |} in
  {| matrixA := reconstructMatrix newU (s (svd st)) (vt (svd st));
     svd := newSvd |}.

Definition handleAngleVTChange (st : AppState num) (newAngle : num)
    : AppState num :=
  let newVT := fromAngle newAngle in
  let newSvd := {| u := u (svd st); s := s (svd st); v := v (svd st);
                   vt := newVT |} in
  {| matrixA := reconstructMatrix (u (svd st)) (s (svd st)) newVT;
     svd := newSvd |}.

Definition handleSigmaChange (st : AppState num) (newS : Vec2 num)
    : AppState num :=
  let newSvd := {| u := u (svd st); s := newS; v := v (svd st);
                   vt := vt (svd st) |} in
  {| matrixA := reconstructMatrix (u (svd st)) newS (vt (svd st));
     svd := newSvd |}.

Definition handle (st : AppState num) (ev : event num) : AppState num :=
  match ev with
  | AChange newA => handleAChange st newA
  | AngleUChange a => handleAngleUChange st a
  | AngleVTChange a => handleAngleVTChange st a
  | SigmaChange newS => handleSigmaChange st newS
  end.

(** The state after a sequence of events. *)
Definition run (st : AppState num) (evs : list (event num)) : AppState num :=
  fold_left handle evs st.

(** The matrices of the four stages of the pipeline. *)
Definition stage1 : Matrix2x2 num := ((n_1, n_0), (n_0, n_1)).
Definition stage2 (st : AppState num) : Matrix2x2 num := vt (svd st).
Definition stage3 (st : AppState num) : Matrix2x2 num :=
  reconstructMatrix ((n_1, n_0), (n_0, n_1)) (s (svd st)) (vt (svd st)).
Definition stage4 (st : AppState num) : Matrix2x2 num := matrixA st.

(** [matrixA] is the product of the three components held in [svd]. *)
Definition consistent (st : AppState num) : Prop :=
  matrixA st = reconstructMatrix (u (svd st)) (s (svd st)) (vt (svd st)).

End App.

(** *** The numbers a binary64 matrix stores, without rounding *)

(** A finite binary64 number is [m * 2^e] for integers [m] and [e]; products
    and differences of such numbers are computed exactly. *)
Module Dyadic.

Definition t : Type := (Z * Z)%type.

Definition of_float (x : float) : option t :=
  match FloatOps.Prim2SF x with
  | SpecFloat.S754_zero _ => Some (0, 0)%Z
  | SpecFloat.S754_finite sgn m e => Some (if sgn then Zneg m else Zpos m, e)
  | _ => None
  end.

Definition mul (x y : t) : t := (fst x * fst y, snd x + snd y)%Z.

Definition sub (x y : t) : t :=
  let e := Z.min (snd x) (snd y) in
  (fst x * 2 ^ (snd x - e) - fst y * 2 ^ (snd y - e), e)%Z.


(** The determinant of the numbers stored in [m], [None] when one of them
    is an infinity or NaN. *)
Definition det (m : Matrix2x2 float) : option t :=
  match of_float (entry m I0 I0), of_float (entry m I0 I1),
        of_float (entry m I1 I0), of_float (entry m I1 I1) with
  | Some a, Some b, Some c, Some d => Some (sub (mul a d) (mul b c))
  | _, _, _, _ => None
  end.

End Dyadic.

(** Sum and scalar multiple of points of the plane. *)
Definition vadd (p q : Vec2 R) : Vec2 R :=
  (fst p + fst q, snd p + snd q)%R.
Definition vscale (k : R) (p : Vec2 R) : Vec2 R :=
  (k * fst p, k * snd p)%R.

(** The scaling factors the buttons of [SigmaInput] step through: [k / 10]
    for an integer [k], as [Math.round(...) / 10] computes it. *)
Definition sigma_grid (k : Z) : float := PrimFloat.div (Js.of_Z k) 10%float.

(** An edit of A whose second singular value passes the test [> 1e-9]; the
    other events are not restricted. *)
Definition full_rank_edit (ev : event R) : Prop :=
  match ev with
  | AChange newA => (1e-9 < snd (s (computeSVD newA)))%R
  | _ => True
  end.

(** * Theorems *)

(** ** Structure of the result, in any arithmetic *)

Section Structure.
Context {num : Type} {N : Number num}.
Local Open Scope num_scope.

Lemma computeSVD_fields (a : Matrix2x2 num) :
  let s1 := n_sqrt (lambda1 a) in
  let s2 := n_sqrt (lambda2 a) in
  let vs := right_vectors a in
  let us := left_vectors a s1 s2 (fst vs) (snd vs) in
  computeSVD a =
  {| u := ((fst (fst us), fst (snd us)), (snd (fst us), snd (snd us)));
     s := (s1, s2);
     v := ((fst (fst vs), fst (snd vs)), (snd (fst vs), snd (snd vs)));
     vt := ((fst (fst vs), snd (fst vs)), (fst (snd vs), snd (snd vs))) |}.
Proof.
  cbv zeta. unfold computeSVD.
  destruct (right_vectors a) as [v1 v2]. cbn [fst snd].
  destruct (left_vectors a _ _ v1 v2) as [u1 u2]. reflexivity.
Qed.

(** V is the identity, the quarter turn, or [[x, -y], [y, x]] for the
    normalised eigenvector [(x, y)]. *)
Lemma v_shape (a : Matrix2x2 num) :
  v (computeSVD a) = identity
  \/ v (computeSVD a) = ((n_0, - n_1), (n_1, n_0))
  \/ exists x y, v (computeSVD a) = ((x, - y), (y, x)).
Proof.
  rewrite computeSVD_fields. cbn [v]. unfold right_vectors.
  destruct (n_abs (gram_f a) <? n_1e_10).
  - destruct (gram_e a >=? gram_g a); cbn [fst snd]; auto.
  - right; right. cbn [fst snd]. eauto.
Qed.

(** C5: in the result of [computeSVD], [vt[i][j]] is [v[j][i]] for all
    [i], [j] in {0, 1}: [vt] is the transpose of [v], whatever the input
    and the arithmetic. *)
Theorem vt_is_transpose_of_v (a : Matrix2x2 num) (i j : idx) :
  entry (vt (computeSVD a)) i j = entry (v (computeSVD a)) j i.
Proof.
  rewrite computeSVD_fields. cbn [v vt].
  destruct i, j; reflexivity.
Qed.

Lemma entry_mat_of (f : idx -> idx -> num) (i j : idx) :
  entry (mat_of f) i j = f i j.
Proof. destruct i, j; reflexivity. Qed.

(** C6: for all [U], [S = (s0, s1)] and [Vt], with no condition on them,
    [reconstructMatrix U S Vt] is the product [U * diag(s0, s1) * Vt], where
    a product has [sum over k of X[i][k] * Y[k][j]] at row [i], column [j]. *)
Theorem reconstructMatrix_is_product (um : Matrix2x2 num) (sv : Vec2 num)
    (vtm : Matrix2x2 num) :
  reconstructMatrix um sv vtm = matprod (matprod um (diag sv)) vtm
  /\ forall i j,
       entry (reconstructMatrix um sv vtm) i j =
       sum_idx (fun k =>
         sum_idx (fun l => entry um i l * entry (diag sv) l k) * entry vtm k j).
Proof.
  split.
  - reflexivity.
  - intros i j.
    change (reconstructMatrix um sv vtm)
      with (matprod (matprod um (diag sv)) vtm).
    unfold matprod at 1. rewrite entry_mat_of.
    destruct i, j; reflexivity.
Qed.

Lemma mat_within_entry (tol : num) (x y : Matrix2x2 num) (i j : idx) :
  mat_within tol x y = true -> within tol (entry x i j) (entry y i j) = true.
Proof.
  unfold mat_within, all_idx. intro H.
  apply andb_prop in H. destruct H as [H0 H1].
  apply andb_prop in H0. apply andb_prop in H1.
  destruct i, j; intuition.
Qed.

Lemma orthonormal_columns_norm (tol : num) (m : Matrix2x2 num) (j : idx) :
  orthonormal_columns tol m = true -> within tol (norm (col m j)) n_1 = true.
Proof.
  unfold orthonormal_columns. intro H.
  apply andb_prop in H. destruct H as [H _].
  apply andb_prop in H. destruct j; intuition.
Qed.

End Structure.

(** ** The program run on binary64 numbers *)

Module OnBinary64.
Import Inputs.
Local Open Scope float_scope.

(** On [[[x, x], [x, x]]] with [x = 2^-18] every step is exact: the Gram
    matrix has [e = f = g = 2^-35], below the threshold [1e-10], so V is taken
    to be the identity although [f] is as large as [e] and [g]. *)
Lemma svd_constant_tiny :
  computeSVD (constant tiny) =
  {| u := ((0.5, -0.5), (0.5, 0.5));
     s := (0x1p-17, 0);
     v := ((1, 0), (0, 1));
     vt := ((1, 0), (0, 1)) |}.
Proof. vm_compute. reflexivity. Qed.

Lemma gram_constant_tiny :
  gram_e (constant tiny) = 0x1p-35 /\ gram_f (constant tiny) = 0x1p-35
  /\ gram_g (constant tiny) = 0x1p-35
  /\ (abs (gram_f (constant tiny)) <? n_1e_10) = true.
Proof. vm_compute. auto. Qed.

Lemma roundtrip_constant_tiny :
  roundtrip (constant tiny) = ((tiny, 0), (tiny, 0)).
Proof. vm_compute. reflexivity. Qed.

Lemma roundtrip_far_constant_tiny :
  mat_within 1e-6 (roundtrip (constant tiny)) (constant tiny) = false.
Proof. vm_compute. reflexivity. Qed.

Lemma u_not_orthonormal_constant_tiny :
  orthonormal_columns 1e-9 (u (computeSVD (constant tiny))) = false
  /\ dot (col (u (computeSVD (constant tiny))) I0)
         (col (u (computeSVD (constant tiny))) I0) = 0.5
  /\ dot (col (u (computeSVD (constant tiny))) I1)
         (col (u (computeSVD (constant tiny))) I1) = 0.5.
Proof. vm_compute. auto. Qed.

(** The same matrix scaled by [2^18] takes the general branch, and there the
    decomposition is one: U has orthonormal columns and the round trip is
    within [1e-6]. *)
Lemma svd_constant_one :
  (abs (gram_f (constant 1)) <? n_1e_10) = false
  /\ orthonormal_columns 1e-9 (u (computeSVD (constant 1))) = true
  /\ mat_within 1e-6 (roundtrip (constant 1)) (constant 1) = true.
Proof. vm_compute. auto. Qed.

(** On [[[0.3, 0.6], [0, 0]]] the sum [e + g] rounds below [disc], the second
    eigenvalue is negative and its square root is NaN. *)
Lemma lambda2_rank_one_a :
  (lambda2 rank_one_a <? 0) = true
  /\ lambda2 rank_one_a = -0x1p-55.
Proof. vm_compute. auto. Qed.

Lemma roundtrip_rank_one_a :
  roundtrip rank_one_a = ((nan, nan), (nan, nan)).
Proof. vm_compute. reflexivity. Qed.

(** On [[[0.2, 0.3], [0.4, 0.6]]] the second eigenvalue rounds to [2^-54],
    its square root passes the test [s2 > 1e-9], and the second column of U
    is the rounding residue of [A v2] divided by it. *)
Lemma u_not_orthonormal_rank_one_b :
  snd (s (computeSVD rank_one_b)) = 0x1p-27
  /\ (n_1e_9 <? snd (s (computeSVD rank_one_b))) = true
  /\ (norm (col (u (computeSVD rank_one_b)) I1) <? 1e-8) = true
  /\ orthonormal_columns 1e-9 (u (computeSVD rank_one_b)) = false.
Proof. vm_compute. auto. Qed.

(** With entries of magnitude [1e100] the discriminant overflows. *)
Lemma svd_huge :
  s (computeSVD huge) = (infinity, nan)
  /\ v (computeSVD huge) = ((0, nan), (nan, 0)).
Proof. vm_compute. auto. Qed.

Lemma svd_zero_binary64 :
  computeSVD zero =
  {| u := ((1, -0), (0, 1));
     s := (0, 0);
     v := ((1, 0), (0, 1));
     vt := ((1, 0), (0, 1)) |}.
Proof. vm_compute. reflexivity. Qed.

(** C3: [computeSVD(A).s = (s0, s1)] is to satisfy [s0 >= s1 >= 0], a negative
    eigenvalue from rounding being clamped to 0 before the square root.  The
    program takes the square root of [lambda2] as it is: on
    [[[0.3, 0.6], [0, 0]]] the second singular value is NaN and both
    comparisons fail. *)
Theorem singular_values_nan_rank_one_a :
  is_nan (snd (s (computeSVD rank_one_a))) = true
  /\ (fst (s (computeSVD rank_one_a)) >=? snd (s (computeSVD rank_one_a)))%num
     = false
  /\ (snd (s (computeSVD rank_one_a)) >=? 0)%num = false
  /\ descending (s (computeSVD rank_one_a)) = false.
Proof. vm_compute. auto. Qed.

End OnBinary64.

(** ** The program in exact arithmetic *)

Module OnReals.
Import Inputs.
Local Open Scope R_scope.

Ltac exact_ops :=
  cbn [n_add n_sub n_mul n_div n_neg n_sqrt n_abs n_ltb n_leb
       n_0 n_1 n_2 n_4 n_1e_10 n_1e_9 n_cos n_sin n_atan2
       Exact ExactTrig entry at_ fst snd] in *.

Lemma Rltb_true (x y : R) : x < y -> Rltb x y = true.
Proof. intro H. unfold Rltb. destruct (Rlt_dec x y); [reflexivity | lra]. Qed.

Lemma Rltb_false (x y : R) : y <= x -> Rltb x y = false.
Proof. intro H. unfold Rltb. destruct (Rlt_dec x y); [lra | reflexivity]. Qed.

Lemma Rleb_true (x y : R) : x <= y -> Rleb x y = true.
Proof. intro H. unfold Rleb. destruct (Rle_dec x y); [reflexivity | lra]. Qed.

Lemma Rleb_false (x y : R) : y < x -> Rleb x y = false.
Proof. intro H. unfold Rleb. destruct (Rle_dec x y); [lra | reflexivity]. Qed.

Lemma Rltb_spec (x y : R) : reflect (x < y) (Rltb x y).
Proof. unfold Rltb. destruct (Rlt_dec x y); constructor; assumption. Qed.

Lemma Rleb_spec (x y : R) : reflect (x <= y) (Rleb x y).
Proof. unfold Rleb. destruct (Rle_dec x y); constructor; assumption. Qed.

Lemma sum_sqr_nonneg (x y : R) : 0 <= x * x + 4 * y * y.
Proof. nra. Qed.

Lemma sqr_sum_nonneg (x y : R) : 0 <= x * x + y * y.
Proof. nra. Qed.

Lemma sqr_sum_pos (x y : R) : x <> 0 -> 0 < x * x + y * y.
Proof. intro H. nra. Qed.

Section Eigenvalues.
Variable m : Matrix2x2 R.

Let e := gram_e m.
Let f := gram_f m.
Let g := gram_g m.

Lemma gram_e_nonneg : 0 <= e.
Proof. subst e. unfold gram_e. exact_ops. nra. Qed.

Lemma gram_g_nonneg : 0 <= g.
Proof. subst g. unfold gram_g. exact_ops. nra. Qed.

(** The determinant of the Gram matrix is the square of [det m]. *)
Lemma gram_det : e * g - f * f = det m * det m.
Proof.
  subst e f g. unfold gram_e, gram_f, gram_g, det. exact_ops. ring.
Qed.

Lemma cauchy_schwarz : f * f <= e * g.
Proof. pose proof gram_det. nra. Qed.

(** No square root of the eigenvalue computation is taken of a negative
    number. *)
Lemma disc_arg_nonneg : 0 <= (e - g) * (e - g) + 4 * f * f.
Proof. apply sum_sqr_nonneg. Qed.

Lemma disc_sqr : disc m * disc m = (e - g) * (e - g) + 4 * f * f.
Proof.
  unfold disc. exact_ops. fold e f g. apply sqrt_sqrt, disc_arg_nonneg.
Qed.

Lemma disc_nonneg : 0 <= disc m.
Proof. unfold disc. exact_ops. apply sqrt_pos. Qed.

Lemma disc_le_trace : disc m <= e + g.
Proof.
  pose proof disc_sqr. pose proof disc_nonneg. pose proof cauchy_schwarz.
  pose proof gram_e_nonneg. pose proof gram_g_nonneg.
  destruct (Rle_lt_dec (disc m) (e + g)) as [|Hlt]; [assumption|].
  exfalso. assert (H4 : (e + g) * (e + g) < disc m * disc m) by nra.
  nra.
Qed.

Lemma lambda2_nonneg : 0 <= lambda2 m.
Proof.
  unfold lambda2. exact_ops. fold e g. pose proof disc_le_trace. lra.
Qed.

Lemma lambda2_le_lambda1 : lambda2 m <= lambda1 m.
Proof.
  unfold lambda1, lambda2. exact_ops. pose proof disc_nonneg. lra.
Qed.

(** In exact arithmetic the singular values are ordered and non-negative,
    with no clamping needed. *)
Lemma singular_values_descending :
  0 <= snd (s (computeSVD m)) <= fst (s (computeSVD m)).
Proof.
  rewrite computeSVD_fields. cbn [s fst snd]. exact_ops. split.
  - apply sqrt_pos.
  - apply sqrt_le_1_alt, lambda2_le_lambda1.
Qed.

Lemma lambda1_nonneg : 0 <= lambda1 m.
Proof. pose proof lambda2_nonneg. pose proof lambda2_le_lambda1. lra. Qed.

(** The eigenvector [(f, lambda1 - e)] is not zero where it is normalised. *)
Lemma norm1_pos :
  1e-10 <= Rabs f ->
  0 < R_sqrt.sqrt (f * f + (lambda1 m - e) * (lambda1 m - e)).
Proof.
  intro Hf. apply sqrt_lt_R0.
  apply sqr_sum_pos. intro H0. rewrite H0, Rabs_R0 in Hf. lra.
Qed.

(** Every square root is of a non-negative number and every divisor is
    positive: [2], the norm of the eigenvector in the general branch, and a
    singular value above [1e-9]. *)
Lemma exact_well_defined :
  0 <= (e - g) * (e - g) + 4 * f * f
  /\ 0 <= lambda1 m /\ 0 <= lambda2 m
  /\ 0 <= f * f + (lambda1 m - e) * (lambda1 m - e)
  /\ (Rltb (Rabs f) 1e-10 = false ->
      0 < R_sqrt.sqrt (f * f + (lambda1 m - e) * (lambda1 m - e))).
Proof.
  split; [apply disc_arg_nonneg |].
  split; [apply lambda1_nonneg |]. split; [apply lambda2_nonneg |].
  split; [apply sqr_sum_nonneg |].
  intro Hf. apply norm1_pos.
  destruct (Rltb_spec (Rabs f) 1e-10); [discriminate | lra].
Qed.

End Eigenvalues.

(** The columns of V in the general branch: [(x / n, y / n)] and its quarter
    turn, where [n] is the norm of [(x, y)]. *)
Lemma normalised_unit (x y : R) :
  x <> 0 ->
  let n := R_sqrt.sqrt (x * x + y * y) in
  (x / n) * (x / n) + (y / n) * (y / n) = 1.
Proof.
  intros Hx n.
  assert (Hpos : 0 < x * x + y * y) by (apply sqr_sum_pos; assumption).
  assert (Hn : n * n = x * x + y * y) by (apply sqrt_sqrt; lra).
  assert (Hn0 : n <> 0).
  { pose proof (sqrt_lt_R0 _ Hpos). fold n in H. lra. }
  replace (x / n * (x / n) + y / n * (y / n))
    with ((x * x + y * y) / (n * n)) by (field; assumption).
  rewrite Hn. field. lra.
Qed.

(** In exact arithmetic V is a rotation [[p, -q], [q, p]] with
    [p^2 + q^2 = 1], for every input: its columns are orthonormal. *)
Lemma v_rotation (a : Matrix2x2 R) :
  exists p q : R,
    right_vectors a = ((p, q), (- q, p)) /\ p * p + q * q = 1.
Proof.
  unfold right_vectors. exact_ops.
  destruct (Rltb_spec (Rabs (gram_f a)) 1e-10) as [Hf | Hf].
  - destruct (Rleb (gram_g a) (gram_e a)).
    + exists 1, 0. split; [| ring]. repeat f_equal. ring.
    + exists 0, 1. split; [reflexivity | ring].
  - assert (Hf0 : gram_f a <> 0).
    { intro H0. rewrite H0, Rabs_R0 in Hf. lra. }
    pose proof (normalised_unit (lambda1 a - gram_e a) Hf0) as Hunit.
    cbv zeta in Hunit. eexists _, _. split; [reflexivity | exact Hunit].
Qed.

(** Where both singular values pass the test [> 1e-9], the columns of U are
    [A v1 / s1] and [A v2 / s2] and the round trip is exact. *)
Lemma roundtrip_exact_full_rank (a : Matrix2x2 R) :
  1e-9 < snd (s (computeSVD a)) -> roundtrip a = a.
Proof.
  intro Hs2. pose proof (singular_values_descending a) as [_ Hs1].
  unfold roundtrip. rewrite computeSVD_fields in *. cbn [u s vt fst snd] in *.
  destruct (v_rotation a) as (p & q & -> & Hpq).
  set (s1 := n_sqrt (lambda1 a)) in *. set (s2 := n_sqrt (lambda2 a)) in *.
  unfold left_vectors. exact_ops.
  rewrite !Rltb_true by lra. exact_ops.
  destruct a as [[a b] [c d]].
  unfold reconstructMatrix, multiply. exact_ops.
  assert (H1 : s1 <> 0) by lra. assert (H2 : s2 <> 0) by lra.
  apply (f_equal2 pair); apply (f_equal2 pair).
  - transitivity (a * (p * p + q * q)); [field; auto | rewrite Hpq; ring].
  - transitivity (b * (p * p + q * q)); [field; auto | rewrite Hpq; ring].
  - transitivity (c * (p * p + q * q)); [field; auto | rewrite Hpq; ring].
  - transitivity (d * (p * p + q * q)); [field; auto | rewrite Hpq; ring].
Qed.


Lemma v_orthonormal (a : Matrix2x2 R) :
  let vm := v (computeSVD a) in
  dot (col vm I0) (col vm I0) = 1 /\ dot (col vm I1) (col vm I1) = 1
  /\ dot (col vm I0) (col vm I1) = 0.
Proof.
  cbv zeta. rewrite computeSVD_fields. cbn [v].
  destruct (v_rotation a) as (p & q & -> & Hpq).
  unfold dot, col. exact_ops. repeat split; try rewrite <- Hpq; ring.
Qed.

(** In exact arithmetic the product is associative and each entry of the
    reconstruction is [s0 U[i][0] Vt[0][j] + s1 U[i][1] Vt[1][j]]. *)
Lemma reconstructMatrix_entries (um : Matrix2x2 R) (sv : Vec2 R)
    (vtm : Matrix2x2 R) (i j : idx) :
  entry (reconstructMatrix um sv vtm) i j =
  fst sv * entry um i I0 * entry vtm I0 j
  + snd sv * entry um i I1 * entry vtm I1 j.
Proof.
  destruct um as [[u00 u01] [u10 u11]], sv as [s0 s1],
    vtm as [[v00 v01] [v10 v11]].
  unfold reconstructMatrix, multiply. destruct i, j; exact_ops; ring.
Qed.

Lemma reconstructMatrix_assoc (um : Matrix2x2 R) (sv : Vec2 R)
    (vtm : Matrix2x2 R) :
  reconstructMatrix um sv vtm = matprod um (matprod (diag sv) vtm).
Proof.
  destruct um as [[u00 u01] [u10 u11]], sv as [s0 s1],
    vtm as [[v00 v01] [v10 v11]].
  cbv [reconstructMatrix multiply matprod mat_of sum_idx diag
       entry at_ fst snd].
  exact_ops. apply (f_equal2 pair); apply (f_equal2 pair); ring.
Qed.

(** *** The general branch computes a decomposition *)

(** [lambda1] is a root of the characteristic polynomial of the Gram
    matrix. *)
Lemma characteristic_root (e f g d : R) :
  d * d = (e - g) * (e - g) + 4 * f * f ->
  let l := (e + g + d) / 2 in
  l * l - (e + g) * l + (e * g - f * f) = 0.
Proof.
  intros Hd l. subst l.
  replace ((e + g + d) / 2 * ((e + g + d) / 2) - (e + g) * ((e + g + d) / 2)
           + (e * g - f * f))
    with ((d * d - ((e - g) * (e - g) + 4 * f * f)) / 4) by field.
  rewrite Hd. field.
Qed.

(** The quadratic form of the Gram matrix on the unit eigenvector [(p, q)]
    and on its quarter turn. *)
Lemma gram_on_eigenvector (e f g l n : R) :
  l * l - (e + g) * l + (e * g - f * f) = 0 ->
  n * n = f * f + (l - e) * (l - e) -> n <> 0 ->
  let p := f / n in
  let q := (l - e) / n in
  e * (p * p) + 2 * f * (p * q) + g * (q * q) = l
  /\ e * (q * q) - 2 * f * (p * q) + g * (p * p) = e + g - l
  /\ f * (p * p - q * q) + (g - e) * (p * q) = 0.
Proof.
  intros Hchar Hn Hn0 p q. subst p q.
  set (y := l - e) in *.
  assert (Hy : f * f + g * y - l * y = 0).
  { replace (f * f + g * y - l * y)
      with (- (l * l - (e + g) * l + (e * g - f * f))) by (unfold y; ring).
    rewrite Hchar. ring. }
  assert (Hnn : n * n <> 0) by (rewrite Hn; intro H0; apply Hn0; nra).
  repeat split.
  - replace (e * (f / n * (f / n)) + 2 * f * (f / n * (y / n))
             + g * (y / n * (y / n)))
      with ((l * (f * f + y * y) + y * (f * f + g * y - l * y)) / (n * n))
      by (unfold y; field; assumption).
    rewrite Hy, <- Hn. field. assumption.
  - replace (e * (y / n * (y / n)) - 2 * f * (f / n * (y / n))
             + g * (f / n * (f / n)))
      with (((e + g - l) * (f * f + y * y) - y * (f * f + g * y - l * y))
            / (n * n))
      by (unfold y; field; assumption).
    rewrite Hy, <- Hn. field. assumption.
  - replace (f * (f / n * (f / n) - y / n * (y / n))
             + (g - e) * (f / n * (y / n)))
      with (f * (f * f + g * y - l * y) / (n * n))
      by (unfold y; field; assumption).
    rewrite Hy. field. assumption.
Qed.

Lemma lambda_sum (m : Matrix2x2 R) :
  lambda1 m + lambda2 m = gram_e m + gram_g m.
Proof. unfold lambda1, lambda2. exact_ops. field. Qed.

Lemma lambda1_characteristic (m : Matrix2x2 R) :
  lambda1 m * lambda1 m - (gram_e m + gram_g m) * lambda1 m
  + (gram_e m * gram_g m - gram_f m * gram_f m) = 0.
Proof. exact (characteristic_root (disc_sqr m)). Qed.

(** Where [|f| >= 1e-10] and both singular values pass the test [> 1e-9],
    the columns of U are orthonormal. *)
Lemma u_orthonormal_general (m : Matrix2x2 R) :
  Rltb (Rabs (gram_f m)) 1e-10 = false ->
  1e-9 < snd (s (computeSVD m)) ->
  let um := u (computeSVD m) in
  dot (col um I0) (col um I0) = 1 /\ dot (col um I1) (col um I1) = 1
  /\ dot (col um I0) (col um I1) = 0.
Proof.
  intros Hgen Hs2. pose proof (singular_values_descending m) as [_ Hs1].
  destruct (exact_well_defined m) as (_ & Hl1 & Hl2 & Harg & Hnorm).
  specialize (Hnorm Hgen).
  pose proof (lambda_sum m) as Hsum.
  pose proof (lambda1_characteristic m) as Hchar.
  cbv zeta. rewrite computeSVD_fields in *. cbn [u s fst snd] in *.
  unfold right_vectors. exact_ops. rewrite Hgen. cbn [fst snd].
  set (n := R_sqrt.sqrt (gram_f m * gram_f m
                          + (lambda1 m - gram_e m) * (lambda1 m - gram_e m)))
    in *.
  assert (Hn : n * n = gram_f m * gram_f m
                       + (lambda1 m - gram_e m) * (lambda1 m - gram_e m))
    by (apply sqrt_sqrt; assumption).
  assert (Hn0 : n <> 0) by lra.
  destruct (gram_on_eigenvector Hchar Hn Hn0) as (Q1 & Q2 & Q3).
  cbv zeta in Q1, Q2, Q3.
  set (p := gram_f m / n) in *. set (q := (lambda1 m - gram_e m) / n) in *.
  assert (H1 : R_sqrt.sqrt (lambda1 m) * R_sqrt.sqrt (lambda1 m) = lambda1 m)
    by (apply sqrt_sqrt; assumption).
  assert (H2 : R_sqrt.sqrt (lambda2 m) * R_sqrt.sqrt (lambda2 m) = lambda2 m)
    by (apply sqrt_sqrt; assumption).
  set (s1 := R_sqrt.sqrt (lambda1 m)) in *.
  set (s2 := R_sqrt.sqrt (lambda2 m)) in *.
  unfold left_vectors. exact_ops. rewrite !Rltb_true by lra.
  unfold dot, col. exact_ops.
  assert (Hs1' : s1 <> 0) by lra. assert (Hs2' : s2 <> 0) by lra.
  clearbody p q s1 s2 n.
  destruct m as [[a b] [c d]]. unfold gram_e, gram_f, gram_g in *. exact_ops.
  set (l1 := lambda1 _) in *. set (l2 := lambda2 _) in *. clearbody l1 l2.
  repeat split.
  - replace ((a * p + b * q) / s1 * ((a * p + b * q) / s1)
             + (c * p + d * q) / s1 * ((c * p + d * q) / s1))
      with (((a * a + c * c) * (p * p) + 2 * (a * b + c * d) * (p * q)
             + (b * b + d * d) * (q * q)) / (s1 * s1))
      by (field; assumption).
    rewrite Q1, <- H1. field. assumption.
  - replace ((a * - q + b * p) / s2 * ((a * - q + b * p) / s2)
             + (c * - q + d * p) / s2 * ((c * - q + d * p) / s2))
      with (((a * a + c * c) * (q * q) - 2 * (a * b + c * d) * (p * q)
             + (b * b + d * d) * (p * p)) / (s2 * s2))
      by (field; assumption).
    rewrite Q2. replace (a * a + c * c + (b * b + d * d) - l1) with l2 by lra.
    rewrite <- H2. field. assumption.
  - replace ((a * p + b * q) / s1 * ((a * - q + b * p) / s2)
             + (c * p + d * q) / s1 * ((c * - q + d * p) / s2))
      with (((a * b + c * d) * (p * p - q * q)
             + (b * b + d * d - (a * a + c * c)) * (p * q)) / (s1 * s2))
      by (field; auto).
    rewrite Q3. field. auto.
Qed.

(** *** The decomposition of [[[x, x], [x, x]]] *)

Section Constant.
Variable x : R.
Hypothesis x_pos : 0 < x.

Lemma gram_constant :
  gram_e (constant x) = 2 * (x * x) /\ gram_f (constant x) = 2 * (x * x)
  /\ gram_g (constant x) = 2 * (x * x).
Proof.
  unfold gram_e, gram_f, gram_g, constant. exact_ops.
  repeat split; ring.
Qed.

Lemma disc_constant : disc (constant x) = 4 * (x * x).
Proof.
  unfold disc. destruct gram_constant as (-> & -> & ->). exact_ops.
  replace ((2 * (x * x) - 2 * (x * x)) * (2 * (x * x) - 2 * (x * x))
           + 4 * (2 * (x * x)) * (2 * (x * x)))
    with ((4 * (x * x)) * (4 * (x * x))) by ring.
  apply sqrt_square. nra.
Qed.

Lemma lambda_constant :
  lambda1 (constant x) = (2 * x) * (2 * x) /\ lambda2 (constant x) = 0.
Proof.
  unfold lambda1, lambda2. rewrite disc_constant.
  destruct gram_constant as (-> & _ & ->). exact_ops. split; field.
Qed.

(** Below the threshold on [f] the eigenvectors [(1, 1)] and [(-1, 1)] of
    the Gram matrix are not computed: V is the identity, the first column of
    U is [(x, x) / (2 x)] and the second its quarter turn. *)
Lemma svd_constant :
  2 * (x * x) < 1e-10 -> 1e-9 < 2 * x ->
  computeSVD (constant x) =
  {| u := ((1 / 2, - (1 / 2)), (1 / 2, 1 / 2));
     s := (2 * x, 0);
     v := identity;
     vt := identity |}.
Proof.
  intros Hf Hs. rewrite computeSVD_fields.
  destruct lambda_constant as [-> ->].
  assert (Hv : right_vectors (constant x) = ((1, 0), (0, 1))).
  { unfold right_vectors. destruct gram_constant as (-> & -> & ->).
    exact_ops. rewrite Rltb_true, Rleb_true; [reflexivity | lra |].
    rewrite Rabs_pos_eq; nra. }
  rewrite Hv. exact_ops.
  rewrite sqrt_square, sqrt_0 by lra.
  unfold left_vectors, constant. exact_ops.
  rewrite Rltb_true, Rltb_false by lra. exact_ops.
  unfold identity. exact_ops.
  replace ((x * 1 + x * 0) / (2 * x)) with (1 / 2) by (field; lra).
  reflexivity.
Qed.

Lemma roundtrip_constant :
  2 * (x * x) < 1e-10 -> 1e-9 < 2 * x ->
  roundtrip (constant x) = ((x, 0), (x, 0)).
Proof.
  intros Hf Hs. unfold roundtrip. rewrite (svd_constant Hf Hs).
  cbn [u s vt]. unfold reconstructMatrix, multiply, identity. exact_ops.
  repeat f_equal; field.
Qed.

End Constant.

Lemma tinyR_in_range :
  0 < tinyR /\ 2 * (tinyR * tinyR) < 1e-10 /\ 1e-9 < 2 * tinyR
  /\ 1e-6 < tinyR.
Proof. unfold tinyR. repeat split; lra. Qed.

Lemma roundtrip_far_constant_tinyR :
  mat_within 1e-6 (roundtrip (constant tinyR)) (constant tinyR) = false.
Proof.
  destruct tinyR_in_range as (H0 & Hf & Hs & Hbig).
  apply not_true_is_false. intro H.
  apply (@mat_within_entry _ _ _ _ _ I0 I1) in H.
  rewrite (roundtrip_constant H0 Hf Hs) in H.
  unfold within, constant in H. exact_ops.
  destruct (Rleb_spec (Rabs (0 - tinyR)) 1e-6) as [Hle | _];
    [| discriminate].
  rewrite Rabs_left in Hle; lra.
Qed.

Lemma sqrt_half_lt : R_sqrt.sqrt (1 / 2 * (1 / 2) + 1 / 2 * (1 / 2)) < 3 / 4.
Proof.
  replace (3 / 4) with (R_sqrt.sqrt (3 / 4 * (3 / 4)))
    by (apply sqrt_square; lra).
  apply sqrt_lt_1_alt. lra.
Qed.

Lemma u_not_orthonormal_constant_tinyR :
  orthonormal_columns 1e-9 (u (computeSVD (constant tinyR))) = false.
Proof.
  destruct tinyR_in_range as (H0 & Hf & Hs & _).
  apply not_true_is_false. intro H.
  apply (@orthonormal_columns_norm _ _ _ _ I0) in H.
  rewrite (svd_constant H0 Hf Hs) in H. cbn [u] in H.
  unfold within, norm, dot, col in H. exact_ops.
  pose proof sqrt_half_lt as Hlt.
  destruct (Rleb_spec
              (Rabs (R_sqrt.sqrt (1 / 2 * (1 / 2) + 1 / 2 * (1 / 2)) - 1))
              1e-9) as [Hle | _]; [| discriminate].
  rewrite Rabs_left in Hle; lra.
Qed.

(** *** The zero matrix *)

Lemma svd_zero_exact :
  computeSVD zero =
  {| u := identity; s := (0, 0); v := identity; vt := identity |}.
Proof.
  rewrite computeSVD_fields.
  assert (Hd : disc (@zero R _) = 0).
  { unfold disc, gram_e, gram_f, gram_g, zero. exact_ops.
    replace ((0 * 0 + 0 * 0 - (0 * 0 + 0 * 0)) * (0 * 0 + 0 * 0 - (0 * 0 + 0 * 0))
             + 4 * (0 * 0 + 0 * 0) * (0 * 0 + 0 * 0)) with 0 by ring.
    apply sqrt_0. }
  assert (Hl : lambda1 (@zero R _) = 0 /\ lambda2 (@zero R _) = 0).
  { unfold lambda1, lambda2. rewrite Hd. unfold gram_e, gram_g, zero.
    exact_ops. split; field. }
  destruct Hl as [-> ->].
  assert (Hv : right_vectors (@zero R _) = ((1, 0), (0, 1))).
  { unfold right_vectors, gram_e, gram_f, gram_g, zero. exact_ops.
    rewrite Rltb_true, Rleb_true; [reflexivity | lra |].
    replace (0 * 0 + 0 * 0) with 0 by ring. rewrite Rabs_R0. lra. }
  rewrite Hv. exact_ops. rewrite sqrt_0.
  unfold left_vectors. rewrite Rltb_false by (exact_ops; lra).
  unfold identity. exact_ops. rewrite Ropp_0. reflexivity.
Qed.

(** *** The angle codec *)

Lemma atan2_pos (y x : R) : 0 < x -> atan2 y x = atan (y / x).
Proof.
  intro Hx. unfold atan2.
  destruct (total_order_T x 0) as [[Hlt | Heq] | Hgt]; [lra | lra | reflexivity].
Qed.

Lemma atan2_neg_up (y x : R) :
  x < 0 -> 0 <= y -> atan2 y x = atan (y / x) + PI.
Proof.
  intros Hx Hy. unfold atan2.
  destruct (total_order_T x 0) as [[Hlt | Heq] | Hgt]; [| lra | lra].
  destruct (Rle_dec 0 y); [reflexivity | lra].
Qed.

Lemma atan2_neg_down (y x : R) :
  x < 0 -> y < 0 -> atan2 y x = atan (y / x) - PI.
Proof.
  intros Hx Hy. unfold atan2.
  destruct (total_order_T x 0) as [[Hlt | Heq] | Hgt]; [| lra | lra].
  destruct (Rle_dec 0 y); [lra | reflexivity].
Qed.

Lemma atan2_axis_up (y : R) : 0 < y -> atan2 y 0 = PI / 2.
Proof.
  intro Hy. unfold atan2.
  destruct (total_order_T 0 0) as [[Hlt | Heq] | Hgt]; [lra | | lra].
  destruct (total_order_T y 0) as [[Hlt | Hy0] | Hgt]; [lra | lra | reflexivity].
Qed.

Lemma atan2_axis_down (y : R) : y < 0 -> atan2 y 0 = - (PI / 2).
Proof.
  intro Hy. unfold atan2.
  destruct (total_order_T 0 0) as [[Hlt | Heq] | Hgt]; [lra | | lra].
  destruct (total_order_T y 0) as [[Hlt | Hy0] | Hgt]; [reflexivity | lra | lra].
Qed.

(** The value of [atan2] is the principal one. *)
Lemma atan2_range (y x : R) : - PI < atan2 y x <= PI.
Proof.
  pose proof PI_RGT_0 as Hpi. pose proof (atan_bound (y / x)) as Hb.
  unfold atan2.
  destruct (total_order_T x 0) as [[Hlt | Heq] | Hgt].
  - destruct (Rle_dec 0 y) as [Hy | Hy].
    + assert (y / x <= 0).
      { pose proof (Rinv_lt_0_compat x Hlt). unfold Rdiv. nra. }
      assert (atan (y / x) <= 0).
      { destruct (Req_dec (y / x) 0) as [-> | Hne].
        - rewrite atan_0. lra.
        - left. rewrite <- atan_0. apply atan_increasing. lra. }
      lra.
    + assert (0 < y / x).
      { pose proof (Rinv_lt_0_compat x Hlt). unfold Rdiv. nra. }
      assert (0 < atan (y / x)).
      { rewrite <- atan_0. apply atan_increasing. assumption. }
      lra.
  - destruct (total_order_T y 0) as [[Hy | Hy] | Hy]; lra.
  - lra.
Qed.

Lemma sin_cos_shift_down (t : R) :
  sin (t - PI) = - sin t /\ cos (t - PI) = - cos t.
Proof.
  rewrite sin_minus, cos_minus, sin_PI, cos_PI. split; ring.
Qed.

(** [atan2] undoes [(cos, sin)] on the principal range. *)
Lemma atan2_sin_cos (t : R) : - PI < t <= PI -> atan2 (sin t) (cos t) = t.
Proof.
  intros [Hlo Hhi]. pose proof PI_RGT_0 as Hpi.
  destruct (total_order_T t (- (PI / 2))) as [[Hlt | Heq] | Hgt].
  - (* the third quadrant *)
    assert (Hc : cos t < 0).
    { rewrite <- cos_neg. apply cos_lt_0; lra. }
    assert (Hs : sin t < 0) by (apply sin_lt_0_var; lra).
    rewrite atan2_neg_down by assumption.
    replace (sin t / cos t) with (tan (t + PI)).
    + rewrite atan_tan by lra. ring.
    + unfold tan. rewrite neg_sin, neg_cos. field. lra.
  - subst t. rewrite cos_neg, sin_neg, cos_PI2, sin_PI2.
    apply atan2_axis_down. lra.
  - destruct (total_order_T t (PI / 2)) as [[Hlt' | Heq'] | Hgt'].
    + (* the right half plane *)
      assert (Hc : 0 < cos t) by (apply cos_gt_0; lra).
      rewrite atan2_pos by assumption.
      change (sin t / cos t) with (tan t). apply atan_tan. lra.
    + subst t. rewrite cos_PI2, sin_PI2. apply atan2_axis_up. lra.
    + (* the second quadrant *)
      assert (Hc : cos t < 0) by (apply cos_lt_0; lra).
      assert (Hs : 0 <= sin t) by (apply sin_ge_0; lra).
      rewrite atan2_neg_up by assumption.
      replace (sin t / cos t) with (tan (t - PI)).
      * rewrite atan_tan by lra. ring.
      * unfold tan. destruct (sin_cos_shift_down t) as [-> ->]. field. lra.
Qed.

(** [sin] and [cos] have every integer multiple of [2 PI] as a period. *)
Lemma sin_cos_period_Z (t : R) (k : Z) :
  sin (t + 2 * IZR k * PI) = sin t /\ cos (t + 2 * IZR k * PI) = cos t.
Proof.
  destruct (Z_le_gt_dec 0 k) as [Hk | Hk].
  - rewrite <- (Z2Nat.id k Hk), <- INR_IZR_INZ.
    split; [apply sin_period | apply cos_period].
  - assert (Hn : (0 <= - k)%Z) by lia.
    rewrite <- (sin_period (t + 2 * IZR k * PI) (Z.to_nat (- k))).
    rewrite <- (cos_period (t + 2 * IZR k * PI) (Z.to_nat (- k))).
    rewrite INR_IZR_INZ, (Z2Nat.id _ Hn), opp_IZR.
    split; f_equal; ring.
Qed.

(** Every real angle has a representative in the principal range. *)
Lemma principal_representative (t : R) :
  exists k : Z, - PI < t + 2 * IZR k * PI <= PI.
Proof.
  pose proof PI_RGT_0 as Hpi.
  set (r := - (t + PI) / (2 * PI)).
  exists (up r). destruct (archimed r) as [Hgt Hle].
  assert (Hr : r * (2 * PI) = - (t + PI)) by (unfold r; field; lra).
  split; nra.
Qed.

(** C7: for every matrix [R], rotation or not, [getAngle R] is
    [atan2 R[1][0] R[0][0]], it lies in the principal range (-pi, pi], and it
    depends on these two entries only: a matrix with the same two entries has
    the same angle. *)
Theorem getAngle_principal (m : Matrix2x2 R) :
  getAngle m = atan2 (entry m I1 I0) (entry m I0 I0)
  /\ - PI < getAngle m <= PI
  /\ forall m' : Matrix2x2 R,
       entry m' I1 I0 = entry m I1 I0 -> entry m' I0 I0 = entry m I0 I0 ->
       getAngle m' = getAngle m.
Proof.
  split; [reflexivity |]. split.
  - unfold getAngle. exact_ops. apply atan2_range.
  - intros m' H10 H00. unfold getAngle. rewrite H10, H00. reflexivity.
Qed.

Lemma getAngle_principal_witness :
  getAngle (((1, 5), (0, 7)) : Matrix2x2 R)
  = getAngle (((1, 0), (0, 1)) : Matrix2x2 R).
Proof.
  exact (proj2 (proj2 (getAngle_principal ((1, 0), (0, 1))))
           ((1, 5), (0, 7)) eq_refl eq_refl).
Defined.

Lemma getAngle_fromAngle (theta : R) :
  getAngle (fromAngle theta) = atan2 (sin theta) (cos theta).
Proof. reflexivity. Qed.

(** C8: for every angle [theta] in (-pi, pi], [getAngle (fromAngle theta)]
    is [theta] within 1e-9; in exact arithmetic it is [theta]. *)
Theorem angle_roundtrip (theta : R) :
  - PI < theta <= PI ->
  Rabs (getAngle (fromAngle theta) - theta) <= 1e-9.
Proof.
  intro Hrange. rewrite getAngle_fromAngle, atan2_sin_cos by assumption.
  replace (theta - theta) with 0 by ring. rewrite Rabs_R0. lra.
Qed.

Lemma angle_roundtrip_witness :
  - PI < 0 <= PI /\ Rabs (getAngle (fromAngle 0) - 0) <= 1e-9.
Proof.
  assert (H : - PI < 0 <= PI) by (pose proof PI_RGT_0; lra).
  split; [exact H | exact (angle_roundtrip H)].
Defined.

(** C10: for every real angle [theta], also outside (-pi, pi],
    [getAngle (fromAngle theta)] lies in (-pi, pi] and differs from [theta] by
    an integer multiple of [2 pi]; and [fromAngle] has period [2 pi]. *)
Theorem angle_normalised (theta : R) :
  - PI < getAngle (fromAngle theta) <= PI
  /\ (exists k : Z, getAngle (fromAngle theta) = theta + 2 * IZR k * PI)
  /\ fromAngle (theta + 2 * PI) = fromAngle theta.
Proof.
  rewrite getAngle_fromAngle. split; [apply atan2_range |]. split.
  - destruct (principal_representative theta) as [k Hk].
    exists k. destruct (sin_cos_period_Z theta k) as [Hs Hc].
    rewrite <- Hs, <- Hc. apply atan2_sin_cos. assumption.
  - unfold fromAngle. exact_ops.
    destruct (sin_cos_period_Z theta 1) as [Hs Hc].
    replace (theta + 2 * PI) with (theta + 2 * 1 * PI) by ring.
    rewrite Hs, Hc. reflexivity.
Qed.

End OnReals.

(** ** The decomposition at both arithmetics *)

Section Decomposition.
Import Inputs.

(** C1: reconstructing from the decomposition is to return [A] within 1e-6
    in each entry, for every [A].  It does not: on binary64 numbers the
    reconstruction of [[[0.3, 0.6], [0, 0]]] is NaN in every entry; and on
    [[[x, x], [x, x]]] with [x = 2^-18] it is [[[x, 0], [x, 0]]], [3.8e-6]
    away in the second column, on binary64 numbers and in exact arithmetic
    alike. *)
Theorem roundtrip_not_within_tolerance :
  mat_within 1e-6%float (roundtrip rank_one_a) rank_one_a = false
  /\ mat_within 1e-6%float (roundtrip (constant tiny)) (constant tiny) = false
  /\ mat_within 1e-6%R (roundtrip (constant tinyR)) (constant tinyR) = false.
Proof.
  split; [| split].
  - rewrite OnBinary64.roundtrip_rank_one_a. vm_compute. reflexivity.
  - exact OnBinary64.roundtrip_far_constant_tiny.
  - exact OnReals.roundtrip_far_constant_tinyR.
Qed.

(** C2: the columns of U and of V are to have norm 1 and dot product 0 within
    1e-9, for every [A] and in every branch.  Those of U do not: on binary64
    numbers the second column of U for [[[0.2, 0.3], [0.4, 0.6]]] has a norm
    below [1e-8]; and on [[[x, x], [x, x]]] with [x = 2^-18] the columns of U
    are [(1/2, 1/2)] and [(-1/2, 1/2)], of norm [0.707], on binary64 numbers
    and in exact arithmetic alike. *)
Theorem u_columns_not_orthonormal :
  orthonormal_columns 1e-9%float (u (computeSVD rank_one_b)) = false
  /\ orthonormal_columns 1e-9%float (u (computeSVD (constant tiny))) = false
  /\ orthonormal_columns 1e-9%R (u (computeSVD (constant tinyR))) = false.
Proof.
  split; [| split].
  - apply OnBinary64.u_not_orthonormal_rank_one_b.
  - apply OnBinary64.u_not_orthonormal_constant_tiny.
  - exact OnReals.u_not_orthonormal_constant_tinyR.
Qed.

(** C9: [computeSVD [[0, 0], [0, 0]]] has singular values [(0, 0)] and U
    equal to the identity, by the fallbacks [u1 = (1, 0)] and
    [u2 = (-u1.y, u1.x)]; on binary64 numbers the entry [-u1.y] is the
    negative zero, equal to 0 as numbers compare. *)
Theorem zero_matrix_decomposition :
  (s (computeSVD (@zero float _)) = (0, 0)%float
   /\ forall i j : idx,
        PrimFloat.eqb (entry (u (computeSVD (@zero float _))) i j)
                      (entry (@identity float _) i j) = true)
  /\ (s (computeSVD (@zero R _)) = (0, 0)%R
      /\ u (computeSVD (@zero R _)) = identity).
Proof.
  split.
  - rewrite OnBinary64.svd_zero_binary64. split; [reflexivity |].
    intros [|] [|]; vm_compute; reflexivity.
  - rewrite OnReals.svd_zero_exact. split; reflexivity.
Qed.

End Decomposition.

(** * Further properties of [utils/matrix], in exact arithmetic *)

Module MatrixLaws.
Import OnReals.
Local Open Scope R_scope.

(** X1: [applyTransform] is linear in the point: it maps a sum to the sum
    of the images and a multiple to the multiple of the image. *)
Theorem applyTransform_linear (m : Matrix2x2 R) (p q : Vec2 R) (k : R) :
  applyTransform m (vadd p q) = vadd (applyTransform m p) (applyTransform m q)
  /\ applyTransform m (vscale k p) = vscale k (applyTransform m p).
Proof.
  unfold applyTransform, vadd, vscale. exact_ops.
  split; apply (f_equal2 pair); ring.
Qed.

Lemma applyTransform_multiply (x y : Matrix2x2 R) (p : Vec2 R) :
  applyTransform (multiply x y) p = applyTransform x (applyTransform y p).
Proof.
  destruct x as [[x00 x01] [x10 x11]], y as [[y00 y01] [y10 y11]].
  unfold applyTransform, multiply. exact_ops.
  apply (f_equal2 pair); ring.
Qed.

(** X2: applying the product of two matrices is applying the right one,
    then the left one; and the matrix [[1, 0], [0, 1]] leaves every point
    where it is. *)
Theorem applyTransform_composes (x y : Matrix2x2 R) (p : Vec2 R) :
  applyTransform (multiply x y) p = applyTransform x (applyTransform y p)
  /\ applyTransform identity p = p.
Proof.
  split; [apply applyTransform_multiply |].
  destruct p as [px py]. unfold applyTransform, identity. exact_ops.
  apply (f_equal2 pair); ring.
Qed.

Lemma sin_cos_unit (t : R) : cos t * cos t + sin t * sin t = 1.
Proof. pose proof (sin2_cos2 t) as H. unfold Rsqr in H. lra. Qed.

Lemma det_fromAngle (t : R) : det (fromAngle t) = 1.
Proof.
  unfold det, fromAngle. exact_ops. pose proof (sin_cos_unit t). lra.
Qed.

(** X3: [fromAngle theta] is a rotation for every angle: its determinant is
    1 and applying it keeps the dot product of any two points, hence lengths
    and angles. *)
Theorem fromAngle_is_rotation (theta : R) (p q : Vec2 R) :
  det (fromAngle theta) = 1
  /\ dot (applyTransform (fromAngle theta) p)
         (applyTransform (fromAngle theta) q) = dot p q.
Proof.
  split; [apply det_fromAngle |].
  unfold dot, applyTransform, fromAngle. exact_ops.
  transitivity ((cos theta * cos theta + sin theta * sin theta)
                * (fst p * fst q + snd p * snd q)); [ring |].
  rewrite sin_cos_unit. ring.
Qed.

(** X4: rotations compose by adding their angles,
    [fromAngle (a + b) = multiply (fromAngle a) (fromAngle b)], and the angle
    0 gives the identity matrix. *)
Theorem fromAngle_adds (a b : R) :
  fromAngle (a + b) = multiply (fromAngle a) (fromAngle b)
  /\ fromAngle 0 = identity.
Proof.
  split.
  - unfold fromAngle, multiply. exact_ops. rewrite cos_plus, sin_plus.
    apply (f_equal2 pair); apply (f_equal2 pair); ring.
  - unfold fromAngle, identity. exact_ops. rewrite cos_0, sin_0, Ropp_0.
    reflexivity.
Qed.

(** A point of the unit circle has an angle in the principal range. *)
Lemma unit_vector_angle (p q : R) :
  p * p + q * q = 1 ->
  exists t : R, - PI < t <= PI /\ cos t = p /\ sin t = q.
Proof.
  intro Hunit. pose proof PI_RGT_0 as Hpi.
  assert (Hp : -1 <= p <= 1) by (split; nra).
  pose proof (acos_bound p) as Hb. pose proof (cos_acos p Hp) as Hc.
  pose proof (sin_acos p Hp) as Hs.
  replace (1 - p²) with (q * q) in Hs by (unfold Rsqr; lra).
  destruct (Rle_lt_dec 0 q) as [Hq | Hq].
  - exists (acos p). rewrite sqrt_square in Hs by assumption.
    repeat split; try assumption; lra.
  - replace (q * q) with ((- q) * (- q)) in Hs by ring.
    rewrite sqrt_square in Hs by lra.
    assert (Hne : acos p <> PI).
    { intro Heq. rewrite Heq, sin_PI in Hs. lra. }
    exists (- acos p). rewrite cos_neg, sin_neg.
    repeat split; try assumption; lra.
Qed.

Lemma fromAngle_getAngle_rotation (p q : R) :
  p * p + q * q = 1 ->
  fromAngle (getAngle ((p, - q), (q, p))) = ((p, - q), (q, p)).
Proof.
  intro Hunit. destruct (unit_vector_angle Hunit) as (t & Ht & Hc & Hs).
  unfold getAngle, fromAngle. exact_ops.
  rewrite <- Hc, <- Hs, (atan2_sin_cos Ht). reflexivity.
Qed.

(** X5: [fromAngle] undoes [getAngle] on rotation matrices: for
    [R = [[p, -q], [q, p]]] with [p^2 + q^2 = 1],
    [fromAngle (getAngle R) = R]. *)
Theorem fromAngle_undoes_getAngle (p q : R) :
  p * p + q * q = 1 ->
  fromAngle (getAngle ((p, - q), (q, p))) = ((p, - q), (q, p)).
Proof. apply fromAngle_getAngle_rotation. Qed.

Lemma fromAngle_undoes_getAngle_witness :
  0 * 0 + 1 * 1 = 1
  /\ fromAngle (getAngle ((0, - 1), (1, 0))) = ((0, - 1), (1, 0)).
Proof.
  assert (H : 0 * 0 + 1 * 1 = 1) by ring.
  split; [exact H | exact (fromAngle_undoes_getAngle H)].
Defined.

Lemma vt_rotation (a : Matrix2x2 R) :
  exists p q : R,
    vt (computeSVD a) = ((p, - q), (q, p)) /\ p * p + q * q = 1.
Proof.
  rewrite computeSVD_fields. cbn [vt].
  destruct (v_rotation a) as (p & q & -> & Hpq). cbn [fst snd].
  exists p, (- q). split.
  - rewrite Ropp_involutive. reflexivity.
  - rewrite <- Hpq. ring.
Qed.

(** X6: the angle that [getAngle] reads off the Vt of a decomposition
    determines it: [fromAngle (getAngle Vt) = Vt] for the Vt of
    [computeSVD A], for every matrix [A]. *)
Theorem vt_is_its_angle (a : Matrix2x2 R) :
  fromAngle (getAngle (vt (computeSVD a))) = vt (computeSVD a).
Proof.
  destruct (vt_rotation a) as (p & q & -> & Hpq).
  apply fromAngle_getAngle_rotation. assumption.
Qed.

End MatrixLaws.

(** * Further properties of [computeSVD] and [reconstructMatrix], in exact
      arithmetic *)

Module DecompositionLaws.
Import OnReals.
Local Open Scope R_scope.

Lemma lambda_product (m : Matrix2x2 R) :
  lambda1 m * lambda2 m = gram_e m * gram_g m - gram_f m * gram_f m.
Proof.
  pose proof (disc_sqr m) as Hd. unfold lambda1, lambda2. exact_ops.
  replace ((gram_e m + gram_g m + disc m) / 2
           * ((gram_e m + gram_g m - disc m) / 2))
    with (((gram_e m + gram_g m) * (gram_e m + gram_g m)
           - disc m * disc m) / 4) by field.
  rewrite Hd. field.
Qed.

(** X7: the singular values of every matrix [A = [[a, b], [c, d]]] satisfy
    [0 <= s1 <= s0], [s0^2 + s1^2 = a^2 + b^2 + c^2 + d^2] and
    [s0 * s1 = |det A|]. *)
Theorem singular_values_characterised (m : Matrix2x2 R) :
  let sv := s (computeSVD m) in
  0 <= snd sv <= fst sv
  /\ fst sv * fst sv + snd sv * snd sv =
     entry m I0 I0 * entry m I0 I0 + entry m I0 I1 * entry m I0 I1
     + entry m I1 I0 * entry m I1 I0 + entry m I1 I1 * entry m I1 I1
  /\ fst sv * snd sv = Rabs (det m).
Proof.
  cbv zeta. split; [apply singular_values_descending |].
  rewrite computeSVD_fields. cbn [s fst snd]. exact_ops.
  pose proof (lambda1_nonneg m) as H1. pose proof (lambda2_nonneg m) as H2.
  split.
  - rewrite !sqrt_sqrt by assumption. rewrite lambda_sum.
    unfold gram_e, gram_g. exact_ops. ring.
  - rewrite <- sqrt_mult by assumption.
    rewrite lambda_product, gram_det.
    apply (sqrt_Rsqr_abs (det m)).
Qed.

Lemma det_of_reconstruction (um : Matrix2x2 R) (sv : Vec2 R)
    (vtm : Matrix2x2 R) :
  det (reconstructMatrix um sv vtm) = det um * (fst sv * snd sv) * det vtm.
Proof.
  destruct um as [[u00 u01] [u10 u11]], sv as [s0 s1],
    vtm as [[v00 v01] [v10 v11]].
  unfold det, reconstructMatrix, multiply. exact_ops. ring.
Qed.

Lemma singular_values_product (m : Matrix2x2 R) :
  fst (s (computeSVD m)) * snd (s (computeSVD m)) = Rabs (det m).
Proof.
  rewrite computeSVD_fields. cbn [s fst snd]. exact_ops.
  rewrite <- sqrt_mult by (apply lambda1_nonneg || apply lambda2_nonneg).
  rewrite lambda_product, gram_det. apply (sqrt_Rsqr_abs (det m)).
Qed.

(** X8: the determinant of a reconstruction is the product of the
    determinants of its factors:
    [det (reconstructMatrix U (s0, s1) Vt) = det U * (s0 * s1) * det Vt]. *)
Theorem det_reconstructMatrix (um : Matrix2x2 R) (sv : Vec2 R)
    (vtm : Matrix2x2 R) :
  det (reconstructMatrix um sv vtm) = det um * (fst sv * snd sv) * det vtm.
Proof. apply det_of_reconstruction. Qed.

(** The initial matrix of the application, [[[1.5, 0.5], [0.5, 1.5]]], has
    singular values 2 and 1 and takes the general branch. *)
Lemma gram_initial :
  gram_e (@initialA R _) = 2.5 /\ gram_f (@initialA R _) = 1.5
  /\ gram_g (@initialA R _) = 2.5.
Proof.
  unfold gram_e, gram_f, gram_g, initialA. exact_ops.
  cbn [n_1_5 n_0_5 ExactUi]. repeat split; lra.
Qed.

Lemma lambda_initial :
  lambda1 (@initialA R _) = 2 * 2 /\ lambda2 (@initialA R _) = 1 * 1.
Proof.
  destruct gram_initial as (He & Hf & Hg).
  assert (Hd : disc (@initialA R _) = 3).
  { unfold disc. rewrite He, Hf, Hg. exact_ops.
    replace ((2.5 - 2.5) * (2.5 - 2.5) + 4 * 1.5 * 1.5) with (3 * 3) by lra.
    apply sqrt_square. lra. }
  unfold lambda1, lambda2. rewrite Hd, He, Hg. exact_ops. split; lra.
Qed.

Lemma s_initial : s (computeSVD (@initialA R _)) = (2, 1).
Proof.
  rewrite computeSVD_fields. cbn [s]. exact_ops.
  destruct lambda_initial as [-> ->]. rewrite !sqrt_square by lra.
  reflexivity.
Qed.

Lemma initial_general_branch :
  Rltb (Rabs (gram_f (@initialA R _))) 1e-10 = false.
Proof.
  destruct gram_initial as (_ & -> & _). apply Rltb_false.
  rewrite Rabs_pos_eq; lra.
Qed.

Lemma initial_full_rank : 1e-9 < snd (s (computeSVD (@initialA R _))).
Proof. rewrite s_initial. cbn [snd]. lra. Qed.

(** X9: for every matrix whose second singular value passes the test
    [> 1e-9], reconstructing from the decomposition returns the matrix
    itself. *)
Theorem roundtrip_exact_at_full_rank (a : Matrix2x2 R) :
  1e-9 < snd (s (computeSVD a)) ->
  reconstructMatrix (u (computeSVD a)) (s (computeSVD a)) (vt (computeSVD a))
  = a.
Proof. intro H. exact (roundtrip_exact_full_rank a H). Qed.

Lemma roundtrip_exact_at_full_rank_witness :
  1e-9 < snd (s (computeSVD (@initialA R _)))
  /\ reconstructMatrix (u (computeSVD (@initialA R _)))
       (s (computeSVD (@initialA R _))) (vt (computeSVD (@initialA R _)))
     = initialA.
Proof.
  split; [exact initial_full_rank |].
  exact (roundtrip_exact_at_full_rank _ initial_full_rank).
Defined.

(** X10: for every matrix the columns of V have unit length and are
    perpendicular to each other. *)
Theorem v_columns_orthonormal (a : Matrix2x2 R) :
  dot (col (v (computeSVD a)) I0) (col (v (computeSVD a)) I0) = 1
  /\ dot (col (v (computeSVD a)) I1) (col (v (computeSVD a)) I1) = 1
  /\ dot (col (v (computeSVD a)) I0) (col (v (computeSVD a)) I1) = 0.
Proof. exact (v_orthonormal a). Qed.

(** X11: where the off-diagonal Gram entry [f] has [|f| >= 1e-10] and the
    second singular value passes the test [> 1e-9], the columns of U have
    unit length and are perpendicular to each other. *)
Theorem u_columns_orthonormal_general (a : Matrix2x2 R) :
  Rltb (Rabs (gram_f a)) 1e-10 = false ->
  1e-9 < snd (s (computeSVD a)) ->
  dot (col (u (computeSVD a)) I0) (col (u (computeSVD a)) I0) = 1
  /\ dot (col (u (computeSVD a)) I1) (col (u (computeSVD a)) I1) = 1
  /\ dot (col (u (computeSVD a)) I0) (col (u (computeSVD a)) I1) = 0.
Proof. intros Hf Hs. exact (u_orthonormal_general a Hf Hs). Qed.

Lemma u_columns_orthonormal_general_witness :
  Rltb (Rabs (gram_f (@initialA R _))) 1e-10 = false
  /\ 1e-9 < snd (s (computeSVD (@initialA R _)))
  /\ dot (col (u (computeSVD (@initialA R _))) I0)
         (col (u (computeSVD (@initialA R _))) I0) = 1.
Proof.
  split; [exact initial_general_branch |].
  split; [exact initial_full_rank |].
  exact (proj1 (u_columns_orthonormal_general _
                  initial_general_branch initial_full_rank)).
Defined.

End DecompositionLaws.

(** * Properties of the application *)

(** ** In any arithmetic *)

Section AppStructure.
Context {num : Type} {N : Number num} {U : Ui num}.
Local Open Scope num_scope.

Lemma at_set_at (p : Vec2 num) (i : idx) (x : num) : at_ (set_at p i x) i = x.
Proof. destruct i; reflexivity. Qed.

Lemma at_set_at_other (p : Vec2 num) (i j : idx) (x : num) :
  j <> i -> at_ (set_at p i x) j = at_ p j.
Proof. destruct i, j; intro H; try reflexivity; exfalso; apply H; reflexivity. Qed.

Lemma entry_set_entry (m : Matrix2x2 num) (row col : idx) (x : num) :
  entry (set_entry m row col x) row col = x.
Proof. destruct row, col; reflexivity. Qed.

(** X12: [handleChange] of [MatrixInput] replaces the addressed entry by
    [parseFloat(val) || 0] and keeps the three other entries. *)
Theorem MatrixInput_handleChange_sets_one_entry (value : Matrix2x2 num)
    (row col : idx) (parsed : num) :
  entry (MatrixInput_handleChange value row col parsed) row col
  = n_or_zero parsed
  /\ forall i j : idx,
       i <> row \/ j <> col ->
       entry (MatrixInput_handleChange value row col parsed) i j
       = entry value i j.
Proof.
  unfold MatrixInput_handleChange. split; [apply entry_set_entry |].
  intros i j H. destruct row, col, i, j; try reflexivity;
    exfalso; destruct H as [H | H]; apply H; reflexivity.
Qed.

Lemma firstn_three_fours (A : Type) (l : list A) :
  slice l 0 4 ++ slice l 4 8 ++ slice l 8 12 = firstn 12 l.
Proof.
  unfold slice. cbn [Nat.sub].
  do 12 (destruct l as [| ? l]; [reflexivity |]). reflexivity.
Qed.

Lemma slice_map (A B : Type) (f : A -> B) (l : list A) (b e : nat) :
  slice (map f l) b e = map f (slice l b e).
Proof. unfold slice. rewrite skipn_map, firstn_map. reflexivity. Qed.

Lemma slice_length (A : Type) (l : list A) (b e : nat) :
  length (slice l b e) = Nat.min (e - b) (length l - b).
Proof. unfold slice. rewrite length_firstn, length_skipn. reflexivity. Qed.

Lemma transformedPoints_map (matrix : Matrix2x2 num)
    (points : list (Vec2 num)) :
  transformedPoints matrix points = map (applyTransform matrix) points.
Proof. unfold transformedPoints. apply map_ext. intros [x y]. reflexivity. Qed.

Lemma polygon_path_none (scale : num) (poly : list (Vec2 num)) :
  polygon_path scale poly = None <-> length poly = 0%nat.
Proof.
  destruct poly as [| p0 rest]; cbn; split; intro H;
    try reflexivity; discriminate.
Qed.

Lemma stage_paths_none (scale : num) (matrix : Matrix2x2 num)
    (points : list (Vec2 num)) :
  stage_paths scale matrix points = None <-> (length points <= 8)%nat.
Proof.
  unfold stage_paths, polygons. rewrite transformedPoints_map.
  set (tp := map (applyTransform matrix) points).
  assert (Hlen : length tp = length points) by apply length_map.
  cbn [fold_right].
  pose proof (polygon_path_none scale (slice tp 0 4)) as H0.
  pose proof (polygon_path_none scale (slice tp 4 8)) as H1.
  pose proof (polygon_path_none scale (slice tp 8 12)) as H2.
  rewrite slice_length, Hlen in H0, H1, H2.
  destruct (polygon_path scale (slice tp 0 4)) as [d0 |];
    destruct (polygon_path scale (slice tp 4 8)) as [d1 |];
    destruct (polygon_path scale (slice tp 8 12)) as [d2 |];
    split; intro H; try reflexivity; try discriminate;
    repeat match goal with
    | Hi : None = None <-> _ |- _ =>
        pose proof (proj1 Hi eq_refl); clear Hi
    | Hi : Some ?d = None <-> ?P |- _ =>
        assert (~ P) by (intro HP; apply Hi in HP; discriminate HP); clear Hi
    end; lia.
Qed.

(** X13: [TransformStage] applies the matrix to every point as
    [applyTransform] does, keeping their number and order; its three
    polygons are, in this order, the images of the points 0 to 3, of the
    points 4 to 7 and of the points 8 to 11, so that together they are the
    first twelve transformed points and points after the twelfth are not
    drawn; each has four vertices when there are at least twelve points;
    and building the paths throws exactly when there are fewer than nine
    points, the third polygon then being empty. *)
Theorem polygons_are_groups_of_four (scale : num) (matrix : Matrix2x2 num)
    (points : list (Vec2 num)) :
  transformedPoints matrix points = map (applyTransform matrix) points
  /\ length (transformedPoints matrix points) = length points
  /\ polygons matrix points
     = map (applyTransform matrix) (slice points 0 4)
       :: map (applyTransform matrix) (slice points 4 8)
       :: map (applyTransform matrix) (slice points 8 12) :: nil
  /\ concat (polygons matrix points)
     = firstn 12 (transformedPoints matrix points)
  /\ ((12 <= length points)%nat ->
      Forall (fun poly => length poly = 4%nat) (polygons matrix points))
  /\ (stage_paths scale matrix points = None <-> (length points <= 8)%nat).
Proof.
  split; [apply transformedPoints_map |].
  split; [rewrite transformedPoints_map; apply length_map |].
  assert (Hp : polygons matrix points
               = map (applyTransform matrix) (slice points 0 4)
                 :: map (applyTransform matrix) (slice points 4 8)
                 :: map (applyTransform matrix) (slice points 8 12) :: nil).
  { unfold polygons. rewrite transformedPoints_map, !slice_map.
    reflexivity. }
  split; [exact Hp |].
  split.
  { unfold polygons. cbn [concat]. rewrite app_nil_r.
    apply firstn_three_fours. }
  split; [| apply stage_paths_none].
  intro Hlen. rewrite Hp.
  repeat constructor; rewrite length_map, slice_length; lia.
Qed.

End AppStructure.

(** ** On binary64 numbers *)

Module AppOnBinary64.
Local Open Scope float_scope.

Lemma or_zero_not_nan (x : float) : is_nan (Js.or_zero x) = false.
Proof.
  unfold Js.or_zero. destruct (is_nan x) eqn:Hn; [reflexivity |].
  destruct (is_zero x); [reflexivity | exact Hn].
Qed.

(** X14: whatever [parseFloat] returns, [handleChange] of [MatrixInput]
    never stores NaN in the matrix: NaN (an empty or malformed field) and
    both zeros are stored as 0.  It does store an infinity as it is. *)
Theorem MatrixInput_never_stores_nan (value : Matrix2x2 float)
    (row col : idx) (parsed : float) :
  is_nan (entry (MatrixInput_handleChange value row col parsed) row col)
  = false
  /\ entry (MatrixInput_handleChange value row col nan) row col = 0
  /\ entry (MatrixInput_handleChange value row col (-0)) row col = 0
  /\ entry (MatrixInput_handleChange value row col infinity) row col
     = infinity.
Proof.
  unfold MatrixInput_handleChange. rewrite !entry_set_entry.
  split; [apply or_zero_not_nan |]. repeat split.
Qed.

Lemma clamp_cases (x : float) :
  let r := Js.max 0 (Js.min 5 (Js.or_zero x)) in
  is_nan r = false
  /\ (r = 0 \/ r = 5 \/ (r = x /\ (0 <? x) = true /\ (5 <? x) = false)).
Proof.
  cbv zeta. unfold Js.or_zero.
  destruct (is_nan x) eqn:Hn; [split; [| left]; reflexivity |].
  destruct (is_zero x) eqn:Hz; [split; [| left]; reflexivity |].
  cbn [orb]. unfold Js.min.
  change (is_nan 5) with false. rewrite Hn. cbn [orb].
  destruct (5 <? x) eqn:H5.
  - split; [| right; left]; reflexivity.
  - assert (Hm : (if x <? 5 then x else if get_sign 5 then 5 else x) = x).
    { destruct (x <? 5); reflexivity. }
    rewrite Hm. unfold Js.max.
    change (is_nan 0) with false. rewrite Hn. cbn [orb].
    destruct (0 <? x) eqn:H0.
    + split; [exact Hn |]. right; right. repeat split.
    + split; [| left]; destruct (x <? 0); reflexivity.
Qed.

(** X15: [handleInput] of [SigmaInput] never stores NaN: it stores 0, 5, or
    the number typed, the last only when [0 < x] holds and [5 < x] does not.
    The other scaling factor is kept. *)
Theorem SigmaInput_handleInput_stores_clamped (value : Vec2 float) (i : idx)
    (parsed : float) :
  let r := at_ (SigmaInput_handleInput value i parsed) i in
  is_nan r = false
  /\ (r = 0 \/ r = 5
      \/ (r = parsed /\ (0 <? parsed) = true /\ (5 <? parsed) = false))
  /\ forall j : idx,
       j <> i -> at_ (SigmaInput_handleInput value i parsed) j = at_ value j.
Proof.
  cbv zeta. unfold SigmaInput_handleInput. rewrite at_set_at.
  destruct (clamp_cases parsed) as [Hn Hc].
  split; [exact Hn |]. split; [exact Hc |].
  intros j Hj. apply at_set_at_other. assumption.
Qed.

Lemma grid_index (k : Z) :
  (0 <= k <= 50)%Z -> In k (map Z.of_nat (seq 0 51)).
Proof.
  intro Hk. apply in_map_iff. exists (Z.to_nat k).
  split; [lia | apply in_seq; lia].
Qed.

(** X16: the buttons of [SigmaInput] step along the grid 0.0, 0.1, ..., 5.0
    without drift: from the factor [k / 10], [0 <= k <= 50], [adjust(i, 0.1)]
    gives exactly [(k + 1) / 10], capped at 5, and [adjust(i, -0.1)] gives
    exactly [(k - 1) / 10], floored at 0. *)
Theorem SigmaInput_adjust_steps_on_grid (value : Vec2 float) (i : idx)
    (k : Z) :
  (0 <= k <= 50)%Z ->
  at_ value i = sigma_grid k ->
  at_ (SigmaInput_adjust value i 0.1) i = sigma_grid (Z.min (k + 1) 50)
  /\ at_ (SigmaInput_adjust value i (-0.1)) i = sigma_grid (Z.max (k - 1) 0).
Proof.
  intros Hk Hval. unfold SigmaInput_adjust. rewrite !at_set_at, Hval.
  clear Hval. apply grid_index in Hk. cbv [seq map Z.of_nat] in Hk.
  repeat (destruct Hk as [<- | Hk]; [vm_compute; split; reflexivity |]).
  destruct Hk.
Qed.

Lemma SigmaInput_adjust_steps_on_grid_witness :
  (0 <= 20 <= 50)%Z
  /\ at_ ((2, 1) : Vec2 float) I0 = sigma_grid 20
  /\ at_ (SigmaInput_adjust (2, 1) I0 0.1) I0 = sigma_grid 21.
Proof.
  assert (Hk : (0 <= 20 <= 50)%Z) by lia.
  assert (Hv : at_ ((2, 1) : Vec2 float) I0 = sigma_grid 20)
    by (vm_compute; reflexivity).
  split; [exact Hk |]. split; [exact Hv |].
  exact (proj1 (SigmaInput_adjust_steps_on_grid (2, 1) I0 Hk Hv)).
Defined.

(** X17: a scaling factor that is NaN, as [computeSVD] can produce, stays
    NaN under both buttons of [SigmaInput]; typing a number replaces it. *)
Theorem SigmaInput_adjust_keeps_nan (value : Vec2 float) (i : idx)
    (typed : float) :
  at_ value i = nan ->
  at_ (SigmaInput_adjust value i 0.1) i = nan
  /\ at_ (SigmaInput_adjust value i (-0.1)) i = nan
  /\ is_nan (at_ (SigmaInput_handleInput value i typed) i) = false.
Proof.
  intro H. unfold SigmaInput_adjust, SigmaInput_handleInput.
  rewrite !at_set_at, H. split; [vm_compute; reflexivity |].
  split; [vm_compute; reflexivity |].
  apply (clamp_cases typed).
Qed.

Lemma SigmaInput_adjust_keeps_nan_witness :
  at_ ((1, nan) : Vec2 float) I1 = nan
  /\ at_ (SigmaInput_adjust (1, nan) I1 0.1) I1 = nan.
Proof.
  assert (H : at_ ((1, nan) : Vec2 float) I1 = nan) by reflexivity.
  split; [exact H |].
  exact (proj1 (SigmaInput_adjust_keeps_nan (1, nan) I1 0 H)).
Defined.

End AppOnBinary64.

(** ** In exact arithmetic *)

Module AppOnReals.
Import OnReals MatrixLaws DecompositionLaws.
Local Open Scope R_scope.

Ltac ui_ops := cbn [n_max n_min n_round n_or_zero n_pi n_5 n_10 n_180
                    n_1_5 n_0_5 ExactUi] in *.

Lemma clamp_range (x : R) : 0 <= Rmax 0 (Rmin 5 x) <= 5.
Proof.
  unfold Rmax, Rmin.
  destruct (Rle_dec 5 x); destruct (Rle_dec 0 _); lra.
Qed.

(** X18: [adjust] of [SigmaInput] stores a factor in [0, 5] that is a
    multiple of one tenth, whatever the factor and the step were, and keeps
    the other factor. *)
Theorem SigmaInput_adjust_on_grid (value : Vec2 R) (i : idx) (delta : R) :
  0 <= at_ (SigmaInput_adjust value i delta) i <= 5
  /\ (exists k : Z, at_ (SigmaInput_adjust value i delta) i = IZR k / 10)
  /\ forall j : idx,
       j <> i -> at_ (SigmaInput_adjust value i delta) j = at_ value j.
Proof.
  unfold SigmaInput_adjust. rewrite at_set_at. exact_ops. ui_ops.
  split; [apply clamp_range |]. split.
  - set (n := Int_part ((at_ value i + delta) * 10 + / 2)).
    unfold Rmax, Rmin.
    destruct (Rle_dec 5 (IZR n / 10)); destruct (Rle_dec 0 _).
    + exists 50%Z. lra.
    + exists 0%Z. lra.
    + exists n. reflexivity.
    + exists 0%Z. lra.
  - intros j Hj. apply at_set_at_other. assumption.
Qed.

Lemma slider_angle_range (d : R) :
  -180 < d <= 180 -> - PI < slider_angle d <= PI.
Proof.
  intro Hd. pose proof PI_RGT_0 as Hpi. unfold slider_angle.
  exact_ops. ui_ops. split.
  - apply Rmult_lt_reg_r with 180; [lra |].
    replace (d * PI / 180 * 180) with (d * PI) by field. nra.
  - apply Rmult_le_reg_r with 180; [lra |].
    replace (d * PI / 180 * 180) with (d * PI) by field. nra.
Qed.

Lemma slider_deg_angle (d : R) : slider_deg (slider_angle d) = d.
Proof.
  unfold slider_deg, slider_angle. exact_ops. ui_ops.
  field. apply PI_neq0.
Qed.

(** X19: a rotation slider shows the position it was moved to: for a
    position [d] with [-180 < d <= 180] degrees, after [handleAngleUChange]
    (or [handleAngleVTChange]) with the angle the slider reports, the slider
    of U (of Vt) shows [d] again. *)
Theorem slider_shows_its_position (st : AppState R) (d : R) :
  -180 < d <= 180 ->
  slider_deg (angleU (handleAngleUChange st (slider_angle d))) = d
  /\ slider_deg (angleVT (handleAngleVTChange st (slider_angle d))) = d.
Proof.
  intro Hd. pose proof (slider_angle_range Hd) as Hr.
  unfold angleU, angleVT, handleAngleUChange, handleAngleVTChange.
  cbn [svd u vt]. rewrite getAngle_fromAngle, (atan2_sin_cos Hr).
  split; apply slider_deg_angle.
Qed.

Lemma slider_shows_its_position_witness :
  -180 < 90 <= 180
  /\ slider_deg (angleU (handleAngleUChange initialState (slider_angle 90)))
     = 90.
Proof.
  assert (H : -180 < 90 <= 180) by lra.
  split; [exact H |].
  exact (proj1 (slider_shows_its_position initialState H)).
Defined.

Lemma handle_consistent (st : AppState R) (ev : event R) :
  full_rank_edit ev -> consistent (handle st ev).
Proof.
  destruct ev as [newA | a | a | newS]; intro H; unfold consistent;
    cbn [handle handleAChange handleAngleUChange handleAngleVTChange
         handleSigmaChange matrixA svd u s vt];
    try reflexivity.
  symmetry. apply roundtrip_exact_full_rank. exact H.
Qed.

Lemma initial_consistent : consistent (@initialState R _ _).
Proof.
  unfold consistent, initialState. cbn [matrixA svd]. symmetry.
  apply roundtrip_exact_full_rank, initial_full_rank.
Qed.

(** X20: from the initial state, after any sequence of events in which
    every edit of A has a second singular value above [1e-9], [matrixA] is
    the product [U * diag(S) * Vt] of the components held in [svd]. *)
Theorem run_keeps_consistent (evs : list (event R)) :
  Forall full_rank_edit evs -> consistent (run initialState evs).
Proof.
  unfold run. generalize (@initialState R _ _), initial_consistent.
  induction evs as [| ev evs IH]; intros st Hst Hall; [exact Hst |].
  cbn [fold_left]. inversion Hall as [| ? ? Hev Hrest]; subst.
  apply IH; [apply handle_consistent; assumption | assumption].
Qed.

Lemma run_keeps_consistent_witness :
  Forall full_rank_edit
    (AngleUChange 1 :: AChange initialA :: SigmaChange (3, 0) :: nil)
  /\ consistent
       (run initialState
          (AngleUChange 1 :: AChange initialA :: SigmaChange (3, 0) :: nil)).
Proof.
  assert (H : Forall full_rank_edit
                (AngleUChange 1 :: AChange initialA
                 :: SigmaChange (3, 0) :: nil)).
  { repeat constructor. exact initial_full_rank. }
  split; [exact H | exact (run_keeps_consistent H)].
Defined.

Lemma stage3_is_scaled_vt (st : AppState R) (p : Vec2 R) :
  applyTransform (stage3 st) p
  = (fst (s (svd st)) * fst (applyTransform (stage2 st) p),
     snd (s (svd st)) * snd (applyTransform (stage2 st) p)).
Proof.
  unfold stage3, stage2, applyTransform, reconstructMatrix, multiply.
  destruct (vt (svd st)) as [[v00 v01] [v10 v11]].
  destruct (s (svd st)) as [s0 s1]. exact_ops.
  apply (f_equal2 pair); ring.
Qed.

(** X21: in a state where [matrixA] is the product of the components, the
    four stages of the pipeline compose as labelled: stage 1 leaves a point
    where it is, stage 2 applies Vt, stage 3 scales the coordinates of the
    stage 2 image by [s0] and [s1], and stage 4 applies U to the stage 3
    image. *)
Theorem pipeline_composes (st : AppState R) (p : Vec2 R) :
  consistent st ->
  applyTransform stage1 p = p
  /\ applyTransform (stage3 st) p
     = (fst (s (svd st)) * fst (applyTransform (stage2 st) p),
        snd (s (svd st)) * snd (applyTransform (stage2 st) p))
  /\ applyTransform (stage4 st) p
     = applyTransform (u (svd st)) (applyTransform (stage3 st) p).
Proof.
  intro Hc. split; [| split].
  - destruct p as [px py]. unfold applyTransform, stage1. exact_ops.
    apply (f_equal2 pair); ring.
  - apply stage3_is_scaled_vt.
  - unfold stage4. rewrite Hc. unfold stage3, applyTransform,
      reconstructMatrix, multiply.
    destruct (u (svd st)) as [[u00 u01] [u10 u11]].
    destruct (vt (svd st)) as [[v00 v01] [v10 v11]].
    destruct (s (svd st)) as [s0 s1]. exact_ops.
    apply (f_equal2 pair); ring.
Qed.

Lemma pipeline_composes_witness :
  consistent (@initialState R _ _)
  /\ applyTransform stage1 ((1, 2) : Vec2 R) = (1, 2).
Proof.
  split; [exact initial_consistent |].
  exact (proj1 (pipeline_composes (1, 2) initial_consistent)).
Defined.

Lemma matrix_ext (x y : Matrix2x2 R) :
  (forall i j : idx, entry x i j = entry y i j) -> x = y.
Proof.
  intro H. destruct x as [[x00 x01] [x10 x11]], y as [[y00 y01] [y10 y11]].
  pose proof (H I0 I0). pose proof (H I0 I1).
  pose proof (H I1 I0). pose proof (H I1 I1).
  cbn [entry at_ fst snd] in *. congruence.
Qed.

Lemma vt_entries (a : Matrix2x2 R) (i j : idx) :
  entry (vt (computeSVD a)) i j = entry (v (computeSVD a)) j i.
Proof.
  rewrite computeSVD_fields. cbn [v vt]. destruct i, j; reflexivity.
Qed.

(** X22: [handleAngleVTChange] replaces [vt] and leaves [v] as it was:
    after an edit of A and a move of the Vt slider to an angle of
    (-pi, pi] other than the one shown, the [v] of the state is still the V
    of the decomposition and [vt] is no longer its transpose. *)
Theorem vt_slider_leaves_v_stale (st : AppState R) (a : Matrix2x2 R)
    (theta : R) :
  - PI < theta <= PI ->
  theta <> angleVT (handleAChange st a) ->
  v (svd (handleAngleVTChange (handleAChange st a) theta)) = v (computeSVD a)
  /\ ~ (forall i j : idx,
          entry (vt (svd (handleAngleVTChange (handleAChange st a) theta)))
            i j
          = entry (v (svd (handleAngleVTChange (handleAChange st a) theta)))
              j i).
Proof.
  intros Hr Hne. split; [reflexivity |]. intro Ht. apply Hne.
  unfold angleVT. cbn [handleAngleVTChange handleAChange svd v vt] in *.
  assert (Heq : fromAngle theta = vt (computeSVD a)).
  { apply matrix_ext. intros i j. rewrite Ht. symmetry. apply vt_entries. }
  rewrite <- Heq, getAngle_fromAngle. symmetry. apply atan2_sin_cos, Hr.
Qed.

Lemma angleVT_zero_matrix (st : AppState R) :
  angleVT (handleAChange st Inputs.zero) = 0.
Proof.
  unfold angleVT, handleAChange. cbn [svd]. rewrite svd_zero_exact.
  cbn [vt]. unfold getAngle, identity. exact_ops.
  rewrite atan2_pos by lra. replace (0 / 1) with 0 by field. apply atan_0.
Qed.

Lemma vt_slider_leaves_v_stale_witness :
  - PI < PI <= PI
  /\ PI <> angleVT (handleAChange initialState Inputs.zero)
  /\ v (svd (handleAngleVTChange (handleAChange initialState Inputs.zero) PI))
     = v (computeSVD Inputs.zero).
Proof.
  assert (Hr : - PI < PI <= PI) by (pose proof PI_RGT_0; lra).
  assert (Hne : PI <> angleVT (handleAChange initialState Inputs.zero)).
  { rewrite angleVT_zero_matrix. apply PI_neq0. }
  split; [exact Hr |]. split; [exact Hne |].
  exact (proj1 (vt_slider_leaves_v_stale initialState Inputs.zero Hr Hne)).
Defined.

(** X23: after an edit of A, moving the U slider to any angle, also the one
    it shows, makes [matrixA] a matrix of determinant [|det A|]; when
    [det A < 0] the U of the decomposition is not a rotation and the slider
    never gives A back. *)
Theorem u_slider_gives_positive_determinant (st : AppState R)
    (a : Matrix2x2 R) (theta : R) :
  det (matrixA (handleAngleUChange (handleAChange st a) theta))
  = Rabs (det a)
  /\ (det a < 0 ->
      matrixA (handleAngleUChange (handleAChange st a) theta) <> a).
Proof.
  assert (Hdet : det (matrixA (handleAngleUChange (handleAChange st a) theta))
                 = Rabs (det a)).
  { cbn [handleAngleUChange handleAChange matrixA svd s vt].
    rewrite det_of_reconstruction, det_fromAngle, singular_values_product.
    destruct (vt_rotation a) as (p & q & -> & Hpq).
    unfold det at 2. exact_ops.
    replace (p * p - - q * q) with (p * p + q * q) by ring.
    rewrite Hpq. ring. }
  split; [exact Hdet |].
  intros Hneg Heq. rewrite Heq in Hdet.
  rewrite Rabs_left in Hdet by assumption. lra.
Qed.

End AppOnReals.

(** * The handedness of V *)

Section Handedness.
Import Inputs.




End Handedness.
